(** * qtlformer: the manifest preparation tool, embedded and verified

    The development follows [src/bin/src/qtlformer/__init__.py] (the
    object-store program, called [Bin] below) and
    [src/tools/src/qtlformer/__init__.py] (the local-path program, called
    [Tools]).  Both programs share every function below except
    [QTLDataset.from_path] and the text of two log messages.

    Modelling conventions.
    - A Python [str] is a [string]: a sequence of characters with code
      points below 256.  On these code points the class [\d] of Python's
      [re] module is exactly the ten characters 0..9.
    - A raised exception is the left injection of the result of a
      computation, a returned value the right one.
    - The calls that reach the outside world (the storage backend and the
      logger) are recorded, in program order, in the list of events a
      computation carries with its result.
    - The storage backend is a pair of answers: [fs_exists] always answers
      with a boolean, [fs_ls] answers with the children of a path or fails. *)

From Stdlib Require Import Ascii String.
From stdpp Require Import base option list strings pretty.

(** ** Python's string operations used by the programs *)

Module Py.

(** [s.split(sep)] for a one-character separator. *)
Fixpoint split (s : string) (sep : ascii) : list string :=
  match s with
  | EmptyString => [EmptyString]
  | String c s' =>
      if Ascii.eqb c sep then EmptyString :: split s' sep
      else match split s' sep with
           | seg :: segs => String c seg :: segs
           | [] => [String c EmptyString]
           end
  end.

(** [sep.join(l)]. *)
Fixpoint join (sep : string) (l : list string) : string :=
  match l with
  | [] => EmptyString
  | [x] => x
  | x :: l' => x +:+ sep +:+ join sep l'
  end.

(** [l[-1]]; the lists it is applied to come from [split], which never
    returns the empty list. *)
Definition last_item (l : list string) : string := List.last l EmptyString.

(** [l[-n:]] for a positive [n]: the last [n] items, or the whole list when it is shorter. *)
Definition last_items (n : nat) (l : list string) : list string :=
  drop (length l - n) l.

(** [len(l)] rendered inside an f-string. *)
Definition str_of_len {A} (l : list A) : string := pretty (length l).

End Py.

(** ** The fragment of Python's [re] the programs rely on *)

Module Re.

(** A compiled pattern. *)
Inductive regex : Type :=
| Eps                       (* the empty pattern *)
| Chr (c : ascii)           (* a literal character *)
| Digit                     (* \d *)
| Bol                       (* ^ *)
| Eol                       (* $ *)
| Cat (r1 r2 : regex)       (* r1 r2 *)
| Alt (r1 r2 : regex)       (* r1|r2 *)
| Plus (r : regex).         (* r+ *)

(** [\d] on code points below 256. *)
Definition is_digit (c : ascii) : bool :=
  match c with
  | "0" | "1" | "2" | "3" | "4" | "5" | "6" | "7" | "8" | "9" => true
  | _ => false
  end%char.

(** A position in the subject string: whether it is the start of the
    string, and what is left to read. *)
Definition pos : Type := bool * string.

Definition shorter (p q : pos) : bool :=
  Nat.ltb (String.length (snd q)) (String.length (snd p)).

(** One or more rounds of [step]; a further round starts only from a
    position that made progress, so [fuel] larger than the length of the
    remaining string is never exhausted. *)
Fixpoint rounds (step : pos -> list pos) (fuel : nat) (p : pos) : list pos :=
  match fuel with
  | O => []
  | S fuel' =>
      let once := step p in
      once ++ flat_map (rounds step fuel') (List.filter (shorter p) once)
  end.

(** All the positions at which a match of [r] starting at [p] can end. *)
Fixpoint ends (r : regex) (p : pos) {struct r} : list pos :=
  match r with
  | Eps => [p]
  | Chr c =>
      match snd p with
      | String a rest => if Ascii.eqb a c then [(false, rest)] else []
      | EmptyString => []
      end
  | Digit =>
      match snd p with
      | String a rest => if is_digit a then [(false, rest)] else []
      | EmptyString => []
      end
  | Bol => if fst p then [p] else []
  | Eol =>
      (* the end of the string, or just before a newline that ends it *)
      match snd p with
      | EmptyString => [p]
      | String "010"%char EmptyString => [p]
      | _ => []
      end
  | Cat r1 r2 => flat_map (ends r2) (ends r1 p)
  | Alt r1 r2 => ends r1 p ++ ends r2 p
  | Plus r1 => rounds (ends r1) (S (String.length (snd p))) p
  end.

(** [pattern.fullmatch(s)] as a truth value: some match consumes all of [s]. *)
Definition fullmatch (r : regex) (s : string) : bool :=
  existsb (fun q => String.eqb (snd q) EmptyString) (ends r (true, s)).

(** The text of a pattern, as [re.compile] reads it. *)
Definition special (c : ascii) : bool :=
  match c with
  | "." | "^" | "$" | "*" | "+" | "?" | "{" | "}" | "[" | "]" | "\" | "|" | "(" | ")" => true
  | _ => false
  end%char.

Definition group (atomic : bool) (s : string) : string :=
  if atomic then s else "(?:" +:+ s +:+ ")".

Definition atomic (r : regex) : bool :=
  match r with
  | Chr _ | Digit | Bol | Eol => true
  | _ => false
  end.

Definition no_alt (r : regex) : bool :=
  match r with Alt _ _ => false | _ => true end.

Fixpoint source (r : regex) : string :=
  match r with
  | Eps => ""
  | Chr c => if special c then String "\"%char (String c "") else String c ""
  | Digit => "\d"
  | Bol => "^"
  | Eol => "$"
  | Cat r1 r2 => group (no_alt r1) (source r1) +:+ group (no_alt r2) (source r2)
  | Alt r1 r2 => source r1 +:+ "|" +:+ source r2
  | Plus r1 => group (atomic r1) (source r1) +:+ "+"
  end.

(** A literal word. *)
Fixpoint lit (w : string) : regex :=
  match w with
  | EmptyString => Eps
  | String c w' => Cat (Chr c) (lit w')
  end.

End Re.

(** [re.compile(r"^QTD\d+$")] and [re.compile(r"^QTS\d+$")]. *)
Definition dataset_pattern : Re.regex :=
  Re.Cat Re.Bol (Re.Cat (Re.lit "QTD") (Re.Cat (Re.Plus Re.Digit) Re.Eol)).
Definition study_pattern : Re.regex :=
  Re.Cat Re.Bol (Re.Cat (Re.lit "QTS") (Re.Cat (Re.Plus Re.Digit) Re.Eol)).

(** ** Exceptions, events and computations *)

Inductive exn : Type :=
| DatasetOrStudyNameError (msg : string)   (* the program's own exception *)
| BackendError (path : string).            (* raised by [fs.ls] *)

Inductive level : Type := DEBUG | INFO | WARNING.

Definition level_no (l : level) : nat :=
  match l with DEBUG => 10 | INFO => 20 | WARNING => 30 end.

Inductive event : Type :=
| Exists (path : string)              (* a call [fs.exists(path)] *)
| Ls (path : string)                  (* a call [fs.ls(path)] *)
| Log (lvl : level) (msg : string).   (* a record the logger lets through *)

(** A computation: the events it caused, in order, and how it ended. *)
Definition M (A : Type) : Type := list event * (exn + A).

Definition ret {A} (a : A) : M A := ([], inr a).

Definition raise {A} (e : exn) : M A := ([], inl e).

Definition bind {A B} (m : M A) (k : A -> M B) : M B :=
  match m with
  | (t, inl e) => (t, inl e)
  | (t, inr a) => (t ++ fst (k a), snd (k a))
  end.

Notation "x <- m ;; k" := (bind m (fun x => k))
  (at level 100, m at next level, right associativity).
Notation "m ;;; k" := (bind m (fun _ => k))
  (at level 100, right associativity).

Definition emit (e : event) : M unit := ([e], inr tt).

(** [try: body  except DatasetOrStudyNameError: handler]. *)
Definition try_except {A} (body handler : M A) : M A :=
  match body with
  | (t, inl (DatasetOrStudyNameError _)) => (t ++ fst handler, snd handler)
  | _ => body
  end.

(** [[f(x) for x in xs]]. *)
Fixpoint for_each {A B} (f : A -> M B) (xs : list A) : M (list B) :=
  match xs with
  | [] => ret []
  | x :: xs' => b <- f x ;; bs <- for_each f xs' ;; ret (b :: bs)
  end.

(** [[x for x in xs if x is not None]]. *)
Definition not_none {A} (xs : list (option A)) : list A := omap (fun x => x) xs.

Definition events {A} (m : M A) : list event := fst m.
Definition outcome {A} (m : M A) : exn + A := snd m.

(** *** The logger: [logging.basicConfig(level=logging.INFO)] *)

Definition basicConfig_level : level := INFO.

Definition logger_log (lvl : level) (msg : string) : M unit :=
  if Nat.leb (level_no basicConfig_level) (level_no lvl)
  then emit (Log lvl msg) else ret tt.

Definition logger_debug : string -> M unit := logger_log DEBUG.
Definition logger_info : string -> M unit := logger_log INFO.
Definition logger_warning : string -> M unit := logger_log WARNING.

(** *** The storage backend: what [filesystem(...)] gives access to *)

Record filesystem : Type := {
  fs_ls : string -> option (list string);   (* [None]: the listing fails *)
  fs_exists : string -> bool
}.

Definition ls (fs : filesystem) (path : string) : M (list string) :=
  emit (Ls path) ;;;
  match fs_ls fs path with
  | Some children => ret children
  | None => raise (BackendError path)
  end.

Definition exists_ (fs : filesystem) (path : string) : M bool :=
  emit (Exists path) ;;; ret (fs_exists fs path).

(** *** [concurrent.futures.ThreadPoolExecutor.map] *)

Module ThreadPoolExecutor.

(** [map(fn, xs)] submits one task per item and hands the results over in
    the order of [xs].  Which tasks have completed, and in which order, by
    the time a result is asked for is not under the program's control: it
    is the argument [sched], a sequence of task indices (the pool width,
    [max_workers=5], only rules some sequences out).  The events of a task
    are recorded as one block when it completes.  A task whose result is
    asked for before it has completed is waited for; when a task raised,
    asking for its result raises and the tasks not yet run are cancelled. *)

Definition slots (B : Type) : Type := list (option (exn + B)).

Definition complete {A B} (fn : A -> M B) (xs : list A)
    (st : list event * slots B) (i : nat) : list event * slots B :=
  match xs !! i, st.2 !! i with
  | Some x, Some None => (st.1 ++ events (fn x), <[i := Some (outcome (fn x))]> st.2)
  | _, _ => st
  end.

Definition run {A B} (fn : A -> M B) (xs : list A) (sched : list nat)
    : list event * slots B :=
  foldl (complete fn xs) ([], replicate (length xs) None) sched.

Fixpoint await {A B} (fn : A -> M B) (xs : list A) (sl : slots B) : M (list B) :=
  match xs, sl with
  | x :: xs', s :: sl' =>
      b <- match s with Some r => ([], r) | None => fn x end ;;
      bs <- await fn xs' sl' ;;
      ret (b :: bs)
  | _, _ => ret []
  end.

Definition map {A B} (sched : list nat) (fn : A -> M B) (xs : list A) : M (list B) :=
  (fst (run fn xs sched), inr tt) ;;; await fn xs (snd (run fn xs sched)).

End ThreadPoolExecutor.

(** *** [pandas.DataFrame.from_records] on a list of dicts *)

Module DataFrame.

(** A dict with string keys and values, in insertion order. *)
Definition record : Type := list (string * string).

Record t : Type := mk {
  columns : list string;
  rows : list (list (option string))
}.

Definition get (r : record) (key : string) : option string :=
  snd <$> List.find (fun kv => String.eqb (fst kv) key) r.

(** The items of [l] in order of first occurrence. *)
Fixpoint uniq (l : list string) : list string :=
  match l with
  | [] => []
  | x :: l' => x :: List.filter (fun y => negb (String.eqb y x)) (uniq l')
  end.

(** The columns are the keys in order of first occurrence (none when
    there is no record); a row holds the values of a record by column. *)
Definition from_records (records : list record) : t :=
  let columns := uniq (concat (List.map (List.map fst) records)) in
  mk columns (List.map (fun r => List.map (get r) columns) records).

End DataFrame.

(** ** The programs *)

(** Which of the two source files a definition is read from. *)
Inductive program : Type :=
| Bin      (* src/bin/src/qtlformer/__init__.py *)
| Tools.   (* src/tools/src/qtlformer/__init__.py *)

Definition validate_name (name : string) (pattern : Re.regex) : M string :=
  logger_debug ("Validating dataset name: " +:+ name) ;;;
  if String.eqb name "" then
    raise (DatasetOrStudyNameError "Name has to be a non-empty string.")
  else if negb (Re.fullmatch pattern name) then
    raise (DatasetOrStudyNameError ("Name '" +:+ name +:+ "' does not match pattern '"
                                    +:+ Re.source pattern +:+ "'."))
  else ret name.

Module QTLDataset.

Record t : Type := mk {
  id : string;
  susie_cs_path : string;
  susie_lbf_path : string
}.

Definition _validate_name (name : string) : M string :=
  logger_debug ("Validating dataset name: " +:+ name) ;;;
  validate_name name dataset_pattern.

(** The [try] block that opens [from_path] in both programs. *)
Definition dataset_id_of (path : string) : M (option string) :=
  try_except
    (dataset_id <- _validate_name (Py.last_item (Py.split path "/")) ;;
     ret (Some dataset_id))
    (ret None).

(** [not fs.exists(a) or not fs.exists(b)]: [or] evaluates its right
    operand only when the left one is false. *)
Definition missing (fs : filesystem) (a b : string) : M bool :=
  found_a <- exists_ fs a ;;
  if negb found_a then ret true
  else found_b <- exists_ fs b ;; ret (negb found_b).

Definition from_path_bin (fs : filesystem) (path : string) : M (option t) :=
  r <- dataset_id_of path ;;
  match r with
  | None => ret None
  | Some dataset_id =>
      let susie_cs_path := path +:+ "/" +:+ dataset_id +:+ ".credible_sets.parquet" in
      let susie_lbf_path := path +:+ "/" +:+ dataset_id +:+ ".lbf_variable.parquet" in
      absent <- missing fs susie_cs_path susie_lbf_path ;;
      if absent then
        logger_warning ("Dataset '" +:+ dataset_id
                        +:+ "' is missing required SuSiE files. Skipping.") ;;;
        ret None
      else ret (Some (mk dataset_id susie_cs_path susie_lbf_path))
  end.

Definition from_path_tools (fs : filesystem) (path : string) : M (option t) :=
  r <- dataset_id_of path ;;
  match r with
  | None => ret None
  | Some dataset_id =>
      let susie_cs_path := path +:+ "/" +:+ dataset_id +:+ ".credible_sets.parquet" in
      let susie_lbf_path := path +:+ "/" +:+ dataset_id +:+ ".lbf_variable.parquet" in
      logger_info ("Checking existence of SuSiE files for dataset '" +:+ dataset_id
                   +:+ "': CS path: " +:+ susie_cs_path
                   +:+ ", LBF path: " +:+ susie_lbf_path) ;;;
      absent <- missing fs susie_cs_path susie_lbf_path ;;
      if absent then
        logger_warning ("Dataset '" +:+ dataset_id
                        +:+ "' is missing required SuSiE files. Skipping.") ;;;
        ret None
      else
        logger_info "Transforming SuSiE paths relative to INPUT-PATH" ;;;
        let susie_cs_path := Py.join "/" (Py.last_items 3 (Py.split susie_cs_path "/")) in
        let susie_lbf_path := Py.join "/" (Py.last_items 3 (Py.split susie_lbf_path "/")) in
        ret (Some (mk dataset_id susie_cs_path susie_lbf_path))
  end.

Definition from_path (v : program) : filesystem -> string -> M (option t) :=
  match v with Bin => from_path_bin | Tools => from_path_tools end.

End QTLDataset.

Module QTLStudy.

Record t : Type := mk {
  id : string;
  path : string;
  datasets : list QTLDataset.t
}.

Definition _validate_name (name : string) : M string :=
  logger_debug ("Validating study name: " +:+ name) ;;;
  validate_name name study_pattern.

Definition from_path (path : string) : M t :=
  study_id <- _validate_name (Py.last_item (Py.split path "/")) ;;
  ret (mk study_id path []).

Definition get_datasets (v : program) (fs : filesystem) (self : t) : M t :=
  dataset_paths <- ls fs (path self) ;;
  datasets <- for_each (QTLDataset.from_path v fs) dataset_paths ;;
  let datasets := not_none datasets in
  ret (mk (id self) (path self) datasets).

End QTLStudy.

Module QTLManifest.

Record t : Type := mk {
  studies : list QTLStudy.t;
  df : DataFrame.t
}.

(** The list [records] the two loops of [transform] fill. *)
Definition records (studies : list QTLStudy.t) : list DataFrame.record :=
  flat_map (fun study =>
    List.map (fun dataset =>
      [ ("study_id", QTLStudy.id study);
        ("dataset_id", QTLDataset.id dataset);
        ("susie_cs_path", QTLDataset.susie_cs_path dataset);
        ("susie_lbf_path", QTLDataset.susie_lbf_path dataset) ])
      (QTLStudy.datasets study))
    studies.

Definition transform (studies : list QTLStudy.t) : M DataFrame.t :=
  logger_info "Transforming manifest to DataFrame..." ;;;
  ret (DataFrame.from_records (records studies)).

(** [QTLManifest(studies=...)]: the generated constructor, then [__post_init__]. *)
Definition init (studies : list QTLStudy.t) : M t :=
  logger_debug ("Initialized QTLManifest with " +:+ Py.str_of_len studies +:+ " studies.") ;;;
  df <- transform studies ;;
  ret (mk studies df).

Definition skipping (v : program) (p : string) : string :=
  match v with
  | Bin => "Skipping invalid study path '" +:+ p +:+ "'"
  | Tools => "Skipping invalid study path '" +:+ p +:+ "'local"
  end.

Definition _prepare_study_for_path (v : program) (fs : filesystem) (p : string)
    : M (option QTLStudy.t) :=
  try_except
    (study <- (self <- QTLStudy.from_path p ;; QTLStudy.get_datasets v fs self) ;;
     ret (Some study))
    (logger_warning (skipping v p) ;;; ret None).

(** [from_gcs_path] of [Bin], which [Tools] calls [from_path]; [fs] is the
    storage every [filesystem(...)] handle of the program reaches. *)
Definition from_gcs_path (v : program) (fs : filesystem) (sched : list nat)
    (gcs_path : string) : M t :=
  study_paths <- ls fs gcs_path ;;
  logger_info ("Found " +:+ Py.str_of_len study_paths +:+ " blobs in " +:+ gcs_path +:+ ".") ;;;
  result <- ThreadPoolExecutor.map sched (_prepare_study_for_path v fs) study_paths ;;
  let studies := not_none result in
  init studies.

End QTLManifest.

(** ** A small tree to run the programs on *)

Module Demo.

Definition listing : list (string * list string) :=
  [ ("bucket/root", ["bucket/root/QTS1"; "bucket/root/bad-name"; "bucket/root/QTS2"]);
    ("bucket/root/QTS1",
      ["bucket/root/QTS1/QTD1"; "bucket/root/QTS1/QTD2"; "bucket/root/QTS1/notes";
       "bucket/root/QTS1/QTD3"]);
    ("bucket/root/QTS2", []) ].

Definition files : list string :=
  [ "bucket/root/QTS1/QTD1/QTD1.credible_sets.parquet";
    "bucket/root/QTS1/QTD1/QTD1.lbf_variable.parquet";
    "bucket/root/QTS1/QTD2/QTD2.credible_sets.parquet";
    "bucket/root/QTS1/QTD3/QTD3.lbf_variable.parquet" ].

Definition fs : filesystem := {|
  fs_ls p := snd <$> List.find (fun kv => String.eqb (fst kv) p) listing;
  fs_exists p := existsb (String.eqb p) files
|}.

End Demo.

(** A tree in which every name is valid and every artifact is present. *)
Module Full.

Definition listing : list (string * list string) :=
  [ ("data", ["data/QTS1"; "data/QTS2"]);
    ("data/QTS1", ["data/QTS1/QTD1"; "data/QTS1/QTD2"; "data/QTS1/QTD3"]);
    ("data/QTS2", ["data/QTS2/QTD4"; "data/QTS2/QTD5"; "data/QTS2/QTD6"]) ].

Definition fs : filesystem := {|
  fs_ls p := snd <$> List.find (fun kv => String.eqb (fst kv) p) listing;
  fs_exists _ := true
|}.

End Full.

(** ** Vocabulary of the statements *)

(** The trailing segment of a path, [path.split("/")[-1]]. *)
Definition name_of (path : string) : string := Py.last_item (Py.split path "/").

Fixpoint digits (s : string) : bool :=
  match s with
  | EmptyString => true
  | String c s' => Re.is_digit c && digits s'
  end.

(** What is left of [s] after its prefix [w], when [w] is a prefix of [s]. *)
Fixpoint strip (w s : string) : option string :=
  match w, s with
  | EmptyString, _ => Some s
  | String c w', String a s' => if Ascii.eqb a c then strip w' s' else None
  | String _ _, EmptyString => None
  end.

(** [w] followed by one or more digits, and nothing else. *)
Definition numbered (w s : string) : Prop :=
  exists ds, s = w +:+ ds /\ ds <> "" /\ digits ds = true.

Fixpoint has_char (c : ascii) (s : string) : bool :=
  match s with
  | EmptyString => false
  | String a s' => Ascii.eqb a c || has_char c s'
  end.

Definition cs_path (path id : string) : string :=
  path +:+ "/" +:+ id +:+ ".credible_sets.parquet".
Definition lbf_path (path id : string) : string :=
  path +:+ "/" +:+ id +:+ ".lbf_variable.parquet".

Definition truncated (p : string) : string :=
  Py.join "/" (Py.last_items 3 (Py.split p "/")).

(** The stored path of an artifact: the path itself in [Bin], its last
    three segments in [Tools]. *)
Definition stored (v : program) (p : string) : string :=
  match v with Bin => p | Tools => truncated p end.

Definition warn_missing (id : string) : event :=
  Log WARNING ("Dataset '" +:+ id +:+ "' is missing required SuSiE files. Skipping.").

Definition info_checking (id cs lbf : string) : event :=
  Log INFO ("Checking existence of SuSiE files for dataset '" +:+ id
            +:+ "': CS path: " +:+ cs +:+ ", LBF path: " +:+ lbf).

(** The paths [fs.exists] was called on, in order. *)
Definition exists_queries (t : list event) : list string :=
  omap (fun e => match e with Exists p => Some p | _ => None end) t.

Definition raises_name_error {A} (m : M A) : Prop :=
  exists msg, outcome m = inl (DatasetOrStudyNameError msg).

(** A child of the root stays in the manifest; a child of a study stays in
    the study. *)
Definition study_survives (p : string) : bool :=
  Re.fullmatch study_pattern (name_of p).
Definition dataset_survives (fs : filesystem) (p : string) : bool :=
  Re.fullmatch dataset_pattern (name_of p)
  && fs_exists fs (cs_path p (name_of p))
  && fs_exists fs (lbf_path p (name_of p)).

(** What resolving a child of a study yields. *)
Definition dataset_at (v : program) (fs : filesystem) (p : string) : option QTLDataset.t :=
  if dataset_survives fs p
  then Some (QTLDataset.mk (name_of p)
               (stored v (cs_path p (name_of p)))
               (stored v (lbf_path p (name_of p))))
  else None.

(** How the task of a child of the root ends. *)
Definition study_at (v : program) (fs : filesystem) (p : string) : exn + option QTLStudy.t :=
  if study_survives p then
    match fs_ls fs p with
    | Some children =>
        inr (Some (QTLStudy.mk (name_of p) p (omap (dataset_at v fs) children)))
    | None => inl (BackendError p)
    end
  else inr None.

(** The first exception in order, or else all the values. *)
Fixpoint collect {B} (rs : list (exn + B)) : exn + list B :=
  match rs with
  | [] => inr []
  | inl e :: _ => inl e
  | inr b :: rs' =>
      match collect rs' with
      | inl e => inl e
      | inr bs => inr (b :: bs)
      end
  end.

(** The keys of a record of [transform], in the order they are written.
    The specification calls the last two [credible_sets_path] and
    [lbf_variable_path], its names for the fields [susie_cs_path] and
    [susie_lbf_path] of a dataset. *)
Definition column_order : list string :=
  ["study_id"; "dataset_id"; "susie_cs_path"; "susie_lbf_path"].

(** Every filled slot of the pool holds the outcome of the task of its index. *)
Definition settled {A B} (fn : A -> M B) (xs : list A)
    (sl : ThreadPoolExecutor.slots B) : Prop :=
  Forall2 (fun x s => s = None \/ s = Some (outcome (fn x))) xs sl.

(** The record and the row of a (study, dataset) pair. *)
Definition record_of (s : QTLStudy.t) (d : QTLDataset.t) : DataFrame.record :=
  [ ("study_id", QTLStudy.id s);
    ("dataset_id", QTLDataset.id d);
    ("susie_cs_path", QTLDataset.susie_cs_path d);
    ("susie_lbf_path", QTLDataset.susie_lbf_path d) ].

Definition row_of (s : QTLStudy.t) (d : QTLDataset.t) : list (option string) :=
  [ Some (QTLStudy.id s); Some (QTLDataset.id d);
    Some (QTLDataset.susie_cs_path d); Some (QTLDataset.susie_lbf_path d) ].

(** Every filled slot of the pool holds the outcome of the task of its
    index, and the events of that task are in the log. *)
Definition logged {A B} (fn : A -> M B) (xs : list A) (log : list event)
    (sl : ThreadPoolExecutor.slots B) : Prop :=
  Forall2 (fun x s => s = None
                      \/ (s = Some (outcome (fn x))
                          /\ forall e, e ∈ events (fn x) -> e ∈ log)) xs sl.

(** ** The command-line callback of [Bin] for bucket paths *)

Module Cli.

(** [typer.BadParameter]. *)
Inductive BadParameter : Type := bad_parameter (msg : string).

(** [s.startswith(prefix)]. *)
Fixpoint startswith (s prefix : string) {struct prefix} : bool :=
  match prefix, s with
  | EmptyString, _ => true
  | String c prefix', String a s' => Ascii.eqb a c && startswith s' prefix'
  | String _ _, EmptyString => false
  end.

(** [s[n:]]. *)
Fixpoint skip (n : nat) (s : string) : string :=
  match n, s with
  | O, _ => s
  | S n', String _ s' => skip n' s'
  | S _, EmptyString => EmptyString
  end.

(** [s.removeprefix(prefix)]. *)
Definition removeprefix (s prefix : string) : string :=
  if startswith s prefix then skip (String.length prefix) s else s.

Definition validate_gcs_path (value : string) : list event * (BadParameter + string) :=
  (events (logger_debug ("Validating GCS path: " +:+ value)),
   if negb (startswith value "gs://") then
     inl (bad_parameter "gcs_path must be a valid GCS path starting with 'gs://'.")
   else inr (removeprefix value "gs://")).

End Cli.

(** A tree in which one validly named study cannot be listed. *)
Module Broken.

Definition listing : list (string * list string) :=
  [ ("r", ["r/QTS1"; "r/skip"; "r/QTS2"; "r/QTS3"]);
    ("r/QTS1", []);
    ("r/QTS3", []) ].

Definition fs : filesystem := {|
  fs_ls p := snd <$> List.find (fun kv => String.eqb (fst kv) p) listing;
  fs_exists _ := false
|}.

End Broken.

(** ** Further vocabulary *)

(** The messages logged at warning level, in order. *)
Definition warnings (t : list event) : list string :=
  omap (fun e => match e with Log WARNING msg => Some msg | _ => None end) t.

(** The paths [fs.ls] was called on, in order. *)
Definition ls_queries (t : list event) : list string :=
  omap (fun e => match e with Ls p => Some p | _ => None end) t.

Definition has_datasets (s : QTLStudy.t) : bool :=
  match QTLStudy.datasets s with [] => false | _ => true end.

(** The existence queries the resolution of one child of a study makes. *)
Definition queries_for (fs : filesystem) (c : string) : list string :=
  if Re.fullmatch dataset_pattern (name_of c) then
    if fs_exists fs (cs_path c (name_of c))
    then [cs_path c (name_of c); lbf_path c (name_of c)]
    else [cs_path c (name_of c)]
  else [].

(** The children a listing answers with; none when the listing fails. *)
Definition children_of (fs : filesystem) (p : string) : list string :=
  match fs_ls fs p with Some children => children | None => [] end.

(** The study a child [q] of the root stands for: none when its name is not
    a valid study name, else its name, its path and the datasets of its
    children that survive, in listing order. *)
Definition study_of (v : program) (fs : filesystem) (q : string) : option QTLStudy.t :=
  if study_survives q
  then Some (QTLStudy.mk (name_of q) q (omap (dataset_at v fs) (children_of fs q)))
  else None.

(** The listing [paths] without the entry [p]. *)
Definition without (p : string) (paths : list string) : list string :=
  List.filter (fun q => negb (String.eqb q p)) paths.

(** The row of the dataset directory [c] found in the study directory [p]. *)
Definition row_at (v : program) (p c : string) : list (option string) :=
  [ Some (name_of p); Some (name_of c);
    Some (stored v (cs_path c (name_of c)));
    Some (stored v (lbf_path c (name_of c))) ].

(** The events of the tasks that have completed, and of those that have not. *)
Definition done_events {A B} (fn : A -> M B) (xs : list A)
    (sl : ThreadPoolExecutor.slots B) : list event :=
  concat (zip_with (fun x s => match s with Some _ => events (fn x) | None => [] end) xs sl).

Definition pending_events {A B} (fn : A -> M B) (xs : list A)
    (sl : ThreadPoolExecutor.slots B) : list event :=
  concat (zip_with (fun x s => match s with Some _ => [] | None => events (fn x) end) xs sl).

(** ** Computations *)

Lemma bind_ret_l {A B} (a : A) (k : A -> M B) : bind (ret a) k = k a.
Proof. unfold bind, ret. simpl. by destruct (k a). Qed.

Lemma outcome_bind {A B} (m : M A) (k : A -> M B) :
  outcome (bind m k) =
  match outcome m with inl e => inl e | inr a => outcome (k a) end.
Proof. by destruct m as [t [e|a]]. Qed.

Lemma events_bind {A B} (m : M A) (k : A -> M B) :
  events (bind m k) =
  events m ++ match outcome m with inl _ => [] | inr a => events (k a) end.
Proof. destruct m as [t [e|a]]; simpl; [by rewrite app_nil_r|done]. Qed.

Lemma logger_debug_silent (msg : string) : logger_debug msg = ret tt.
Proof. reflexivity. Qed.

Lemma logger_info_emits (msg : string) : logger_info msg = emit (Log INFO msg).
Proof. reflexivity. Qed.

Lemma logger_warning_emits (msg : string) : logger_warning msg = emit (Log WARNING msg).
Proof. reflexivity. Qed.

(** ** The two patterns *)

Lemma rounds_S (step : Re.pos -> list Re.pos) (n : nat) (p : Re.pos) :
  Re.rounds step (S n) p =
  step p ++ flat_map (Re.rounds step n) (List.filter (Re.shorter p) (step p)).
Proof. reflexivity. Qed.

Lemma ends_digit_cons (b : bool) (a : ascii) (s : string) :
  Re.ends Re.Digit (b, String a s) = if Re.is_digit a then [(false, s)] else [].
Proof. reflexivity. Qed.

Lemma ends_eol_cons (b : bool) (a : ascii) (s : string) :
  existsb (fun q : Re.pos => String.eqb (snd q) "") (Re.ends Re.Eol (b, String a s)) = false.
Proof.
  cbn [Re.ends snd]. destruct a as [[] [] [] [] [] [] [] []]; try reflexivity.
  destruct s; reflexivity.
Qed.

Lemma rounds_digit_end (n : nat) (s : string) (b : bool) :
  String.length s < n ->
  existsb (fun q => String.eqb (snd q) "")
    (flat_map (Re.ends Re.Eol) (Re.rounds (Re.ends Re.Digit) n (b, s)))
  = negb (String.eqb s "") && digits s.
Proof.
  revert n b. induction s as [|a s IH]; intros n b Hn.
  - destruct n; [lia|]. reflexivity.
  - destruct n as [|n]; [lia|]. simpl in Hn.
    rewrite rounds_S, ends_digit_cons. cbn [digits String.eqb negb andb].
    destruct (Re.is_digit a) eqn:Ha; [|reflexivity].
    cbn [List.filter].
    assert (Hsh : Re.shorter (b, String a s) (false, s) = true).
    { unfold Re.shorter. simpl. apply Nat.ltb_lt. lia. }
    rewrite Hsh. cbn [app flat_map]. rewrite app_nil_r, existsb_app.
    destruct s as [|a' s].
    + reflexivity.
    + rewrite ends_eol_cons, IH by lia. reflexivity.
Qed.


Lemma strip_spec (w s rest : string) : strip w s = Some rest <-> s = w +:+ rest.
Proof.
  revert s. induction w as [|c w IH]; intros s.
  - change ("" +:+ rest) with rest. simpl. split; congruence.
  - destruct s as [|a s]; [by split|].
    change (String c w +:+ rest) with (String c (w +:+ rest)). cbn [strip].
    destruct (Ascii.eqb_spec a c) as [->|Hne].
    + rewrite IH. split; congruence.
    + split; congruence.
Qed.

Lemma ends_lit (w s : string) (b : bool) :
  Re.ends (Re.lit w) (b, s) =
  match strip w s with
  | Some rest => [(b && String.eqb w "", rest)]
  | None => []
  end.
Proof.
  revert s b. induction w as [|c w IH]; intros s b.
  - simpl. by rewrite andb_true_r.
  - change (Re.ends (Re.lit (String c w)) (b, s))
      with (flat_map (Re.ends (Re.lit w)) (Re.ends (Re.Chr c) (b, s))).
    destruct s as [|a s]; [reflexivity|]. cbn [Re.ends snd strip].
    destruct (Ascii.eqb a c); [|reflexivity].
    cbn [flat_map]. rewrite app_nil_r, IH.
    destruct (strip w s); [|reflexivity]. by rewrite andb_false_r.
Qed.

Lemma fullmatch_prefix_digits (w s : string) :
  Re.fullmatch (Re.Cat Re.Bol (Re.Cat (Re.lit w) (Re.Cat (Re.Plus Re.Digit) Re.Eol))) s =
  match strip w s with
  | Some rest => negb (String.eqb rest "") && digits rest
  | None => false
  end.
Proof.
  unfold Re.fullmatch.
  change (Re.ends (Re.Cat Re.Bol (Re.Cat (Re.lit w) (Re.Cat (Re.Plus Re.Digit) Re.Eol))) (true, s))
    with (flat_map (fun p => flat_map (fun q => flat_map (Re.ends Re.Eol)
                 (Re.rounds (Re.ends Re.Digit) (S (String.length (snd q))) q))
               (Re.ends (Re.lit w) p)) [(true, s)]).
  cbn [flat_map]. rewrite app_nil_r, ends_lit.
  destruct (strip w s) as [rest|]; [|reflexivity].
  cbn [flat_map]. rewrite app_nil_r. apply rounds_digit_end. simpl. lia.
Qed.

Lemma fullmatch_numbered (w s : string) :
  Re.fullmatch (Re.Cat Re.Bol (Re.Cat (Re.lit w) (Re.Cat (Re.Plus Re.Digit) Re.Eol))) s = true
  <-> numbered w s.
Proof.
  rewrite fullmatch_prefix_digits. unfold numbered. split.
  - destruct (strip w s) as [rest|] eqn:Hs; [|done].
    intros [Hne Hd]%andb_true_iff. exists rest. split; [by apply strip_spec|].
    split; [|done]. intros ->. done.
  - intros (ds & Hs & Hne & Hd). apply strip_spec in Hs. rewrite Hs, Hd.
    destruct ds; [done|reflexivity].
Qed.

Lemma dataset_pattern_numbered (s : string) :
  Re.fullmatch dataset_pattern s = true <-> numbered "QTD" s.
Proof. apply fullmatch_numbered. Qed.

Lemma study_pattern_numbered (s : string) :
  Re.fullmatch study_pattern s = true <-> numbered "QTS" s.
Proof. apply fullmatch_numbered. Qed.

(** ** Splitting and joining *)

Lemma split_nonempty (s : string) (sep : ascii) : Py.split s sep <> [].
Proof.
  destruct s as [|c s]; [done|]. simpl.
  destruct (Ascii.eqb c sep); [done|]. by destruct (Py.split s sep).
Qed.

Lemma split_cons_sep (s : string) (sep : ascii) :
  Py.split (String sep s) sep = "" :: Py.split s sep.
Proof. simpl. by rewrite Ascii.eqb_refl. Qed.

Lemma split_app_sep (a b : string) (sep : ascii) :
  Py.split (a +:+ String sep b) sep = Py.split a sep ++ Py.split b sep.
Proof.
  induction a as [|c a IH].
  - change ("" +:+ String sep b) with (String sep b). by rewrite split_cons_sep.
  - change (String c a +:+ String sep b) with (String c (a +:+ String sep b)).
    cbn [Py.split]. rewrite IH. destruct (Ascii.eqb c sep); [done|].
    pose proof (split_nonempty a sep). by destruct (Py.split a sep).
Qed.

Lemma split_no_sep (s : string) (sep : ascii) :
  has_char sep s = false -> Py.split s sep = [s].
Proof.
  induction s as [|c s IH]; [done|]. cbn [has_char Py.split].
  intros [Hc Hs]%orb_false_iff. by rewrite Hc, IH.
Qed.

Lemma split_segments (s : string) (sep : ascii) :
  Forall (fun seg => has_char sep seg = false) (Py.split s sep).
Proof.
  induction s as [|c s IH]; [by repeat constructor|]. cbn [Py.split].
  destruct (Ascii.eqb c sep) eqn:Hc; [by constructor|].
  destruct (Py.split s sep) as [|seg segs]; [by repeat constructor; simpl; rewrite Hc|].
  inversion_clear IH. constructor; [|done]. simpl. by rewrite Hc.
Qed.

Lemma split_join (l : list string) (sep : ascii) :
  l <> [] -> Forall (fun seg => has_char sep seg = false) l ->
  Py.split (Py.join (String sep "") l) sep = l.
Proof.
  induction l as [|x l IH]; [done|]. intros _ Hl. inversion_clear Hl as [|?? Hx Hl'].
  destruct l as [|y l]; [by apply split_no_sep|].
  change (Py.join (String sep "") (x :: y :: l))
    with (x +:+ String sep (Py.join (String sep "") (y :: l))).
  rewrite split_app_sep, IH, split_no_sep; done.
Qed.

Lemma has_char_app (c : ascii) (a b : string) :
  has_char c (a +:+ b) = has_char c a || has_char c b.
Proof.
  induction a as [|x a IH]; [done|].
  change (String x a +:+ b) with (String x (a +:+ b)). simpl. by rewrite IH, orb_assoc.
Qed.

Lemma digits_no_char (c : ascii) (ds : string) :
  Re.is_digit c = false -> digits ds = true -> has_char c ds = false.
Proof.
  intros Hc. induction ds as [|a ds IH]; [done|]. simpl.
  intros [Ha Hd]%andb_true_iff. rewrite IH by done.
  destruct (Ascii.eqb_spec a c) as [->|]; [congruence|done].
Qed.

Lemma numbered_no_char (c : ascii) (w s : string) :
  Re.is_digit c = false -> has_char c w = false -> numbered w s -> has_char c s = false.
Proof.
  intros Hc Hw (ds & -> & _ & Hd). by rewrite has_char_app, Hw, (digits_no_char c ds).
Qed.

Lemma name_of_app (path name : string) :
  has_char "/" name = false -> name_of (path +:+ "/" +:+ name) = name.
Proof.
  intros Hn. unfold name_of, Py.last_item.
  change (path +:+ "/" +:+ name) with (path +:+ String "/" name).
  rewrite split_app_sep, (split_no_sep name) by done. apply last_last.
Qed.

Lemma last_items_app (n : nat) (l k : list string) :
  length k = n -> Py.last_items n (l ++ k) = k.
Proof.
  intros <-. unfold Py.last_items. rewrite length_app.
  replace (length l + length k - length k) with (length l) by lia.
  by rewrite drop_app_length.
Qed.

Lemma last_items_nonempty (n : nat) (l : list string) :
  0 < n -> l <> [] -> Py.last_items n l <> [].
Proof.
  intros Hn Hl Hd. unfold Py.last_items in Hd.
  apply (f_equal length) in Hd. rewrite length_drop in Hd. simpl in Hd.
  destruct l; [done|]. simpl in Hd. lia.
Qed.

Lemma last_items_segments (n : nat) (s : string) (sep : ascii) :
  Forall (fun seg => has_char sep seg = false) (Py.last_items n (Py.split s sep)).
Proof. apply Forall_drop, split_segments. Qed.

(** The segments of a truncated path are the last three of the path. *)
Lemma split_truncated (s : string) :
  Py.split (Py.join "/" (Py.last_items 3 (Py.split s "/"))) "/"
  = Py.last_items 3 (Py.split s "/").
Proof.
  apply split_join; [|apply last_items_segments].
  apply last_items_nonempty; [lia|apply split_nonempty].
Qed.

Lemma truncate_three (pre a b c : string) :
  has_char "/" a = false -> has_char "/" b = false -> has_char "/" c = false ->
  Py.join "/" (Py.last_items 3 (Py.split (pre +:+ "/" +:+ a +:+ "/" +:+ b +:+ "/" +:+ c) "/"))
  = a +:+ "/" +:+ b +:+ "/" +:+ c.
Proof.
  intros Ha Hb Hc.
  change (pre +:+ "/" +:+ a +:+ "/" +:+ b +:+ "/" +:+ c)
    with (pre +:+ String "/" (a +:+ String "/" (b +:+ String "/" c))).
  rewrite !split_app_sep, (split_no_sep a), (split_no_sep b), (split_no_sep c) by done.
  by rewrite last_items_app.
Qed.

(** ** The identifier validator *)

Lemma validate_name_run (name : string) (pattern : Re.regex) :
  validate_name name pattern =
  if String.eqb name "" then
    raise (DatasetOrStudyNameError "Name has to be a non-empty string.")
  else if Re.fullmatch pattern name then ret name
  else raise (DatasetOrStudyNameError
                ("Name '" +:+ name +:+ "' does not match pattern '"
                 +:+ Re.source pattern +:+ "'.")).
Proof.
  unfold validate_name. rewrite logger_debug_silent, bind_ret_l.
  by destruct (Re.fullmatch pattern name).
Qed.

Lemma numbered_nonempty (w s : string) : numbered w s -> s <> "".
Proof. intros (ds & -> & Hne & _) Hs. destruct w; [done|discriminate]. Qed.

Lemma dataset_validate_name_run (name : string) :
  QTLDataset._validate_name name =
  if Re.fullmatch dataset_pattern name then ret name
  else raise (DatasetOrStudyNameError
                (if String.eqb name "" then "Name has to be a non-empty string."
                 else "Name '" +:+ name +:+ "' does not match pattern '^QTD\d+$'.")).
Proof.
  unfold QTLDataset._validate_name.
  rewrite logger_debug_silent, bind_ret_l, validate_name_run.
  destruct (String.eqb_spec name "") as [->|Hne]; [reflexivity|].
  by destruct (Re.fullmatch dataset_pattern name).
Qed.

Lemma study_validate_name_run (name : string) :
  QTLStudy._validate_name name =
  if Re.fullmatch study_pattern name then ret name
  else raise (DatasetOrStudyNameError
                (if String.eqb name "" then "Name has to be a non-empty string."
                 else "Name '" +:+ name +:+ "' does not match pattern '^QTS\d+$'.")).
Proof.
  unfold QTLStudy._validate_name.
  rewrite logger_debug_silent, bind_ret_l, validate_name_run.
  destruct (String.eqb_spec name "") as [->|Hne]; [reflexivity|].
  by destruct (Re.fullmatch study_pattern name).
Qed.

(** ** The dataset resolver *)

Lemma dataset_id_of_run (path : string) :
  QTLDataset.dataset_id_of path =
  ret (if Re.fullmatch dataset_pattern (name_of path) then Some (name_of path) else None).
Proof.
  unfold QTLDataset.dataset_id_of. fold (name_of path).
  rewrite dataset_validate_name_run.
  by destruct (Re.fullmatch dataset_pattern (name_of path)).
Qed.

Lemma missing_run (fs : filesystem) (a b : string) :
  QTLDataset.missing fs a b =
  (if fs_exists fs a then [Exists a; Exists b] else [Exists a],
   inr (negb (fs_exists fs a && fs_exists fs b))).
Proof.
  unfold QTLDataset.missing, exists_.
  destruct (fs_exists fs a), (fs_exists fs b); reflexivity.
Qed.

Lemma from_path_bin_run (fs : filesystem) (path : string) :
  QTLDataset.from_path_bin fs path =
  let id := name_of path in
  let cs := cs_path path id in
  let lbf := lbf_path path id in
  if Re.fullmatch dataset_pattern id then
    if fs_exists fs cs then
      if fs_exists fs lbf then ([Exists cs; Exists lbf], inr (Some (QTLDataset.mk id cs lbf)))
      else ([Exists cs; Exists lbf; warn_missing id], inr None)
    else ([Exists cs; warn_missing id], inr None)
  else ([], inr None).
Proof.
  unfold QTLDataset.from_path_bin. rewrite dataset_id_of_run, bind_ret_l. cbv zeta.
  destruct (Re.fullmatch dataset_pattern (name_of path)); [|reflexivity].
  rewrite missing_run. fold (cs_path path (name_of path)) (lbf_path path (name_of path)).
  destruct (fs_exists fs (cs_path _ _)), (fs_exists fs (lbf_path _ _)); reflexivity.
Qed.

Lemma from_path_tools_run (fs : filesystem) (path : string) :
  QTLDataset.from_path_tools fs path =
  let id := name_of path in
  let cs := cs_path path id in
  let lbf := lbf_path path id in
  if Re.fullmatch dataset_pattern id then
    if fs_exists fs cs then
      if fs_exists fs lbf then
        ([info_checking id cs lbf; Exists cs; Exists lbf;
          Log INFO "Transforming SuSiE paths relative to INPUT-PATH"],
         inr (Some (QTLDataset.mk id (truncated cs) (truncated lbf))))
      else ([info_checking id cs lbf; Exists cs; Exists lbf; warn_missing id], inr None)
    else ([info_checking id cs lbf; Exists cs; warn_missing id], inr None)
  else ([], inr None).
Proof.
  unfold QTLDataset.from_path_tools. rewrite dataset_id_of_run, bind_ret_l. cbv zeta.
  destruct (Re.fullmatch dataset_pattern (name_of path)); [|reflexivity].
  rewrite missing_run. fold (cs_path path (name_of path)) (lbf_path path (name_of path)).
  destruct (fs_exists fs (cs_path _ _)), (fs_exists fs (lbf_path _ _)); reflexivity.
Qed.

Lemma from_path_outcome (v : program) (fs : filesystem) (path : string) :
  outcome (QTLDataset.from_path v fs path) =
  inr (if dataset_survives fs path
       then Some (QTLDataset.mk (name_of path)
                    (stored v (cs_path path (name_of path)))
                    (stored v (lbf_path path (name_of path))))
       else None).
Proof.
  unfold dataset_survives.
  destruct v; cbn [QTLDataset.from_path];
    [rewrite from_path_bin_run|rewrite from_path_tools_run]; cbv zeta;
    destruct (Re.fullmatch dataset_pattern (name_of path)),
      (fs_exists fs (cs_path path (name_of path))),
      (fs_exists fs (lbf_path path (name_of path)));
    reflexivity.
Qed.

Lemma from_path_queries (v : program) (fs : filesystem) (path : string) :
  exists_queries (events (QTLDataset.from_path v fs path)) =
  if Re.fullmatch dataset_pattern (name_of path) then
    if fs_exists fs (cs_path path (name_of path))
    then [cs_path path (name_of path); lbf_path path (name_of path)]
    else [cs_path path (name_of path)]
  else [].
Proof.
  destruct v; cbn [QTLDataset.from_path];
    [rewrite from_path_bin_run|rewrite from_path_tools_run]; cbv zeta;
    destruct (Re.fullmatch dataset_pattern (name_of path)),
      (fs_exists fs (cs_path path (name_of path))),
      (fs_exists fs (lbf_path path (name_of path)));
    reflexivity.
Qed.

(** ** Comprehensions and the thread pool *)

Lemma for_each_outcome {A B} (f : A -> M B) (xs : list A) :
  outcome (for_each f xs) = collect (List.map (fun x => outcome (f x)) xs).
Proof.
  induction xs as [|x xs IH]; [done|]. cbn [for_each List.map collect].
  rewrite outcome_bind. destruct (outcome (f x)) as [e|b]; [done|].
  rewrite outcome_bind, IH. by destruct (collect _).
Qed.

Section executor.
Context {A B : Type} (fn : A -> M B) (xs : list A).

Lemma settled_complete (st : list event * ThreadPoolExecutor.slots B) (i : nat) :
  settled fn xs st.2 -> settled fn xs (ThreadPoolExecutor.complete fn xs st i).2.
Proof.
  intros Hst. unfold ThreadPoolExecutor.complete.
  destruct (xs !! i) as [x|] eqn:Hx; [|done].
  destruct (st.2 !! i) as [[r|]|] eqn:Hs; [done| |done].
  cbn [snd]. unfold settled. rewrite <- (list_insert_id xs i x Hx).
  apply Forall2_insert; [done|by right].
Qed.

Lemma settled_run (sched : list nat) :
  settled fn xs (ThreadPoolExecutor.run fn xs sched).2.
Proof.
  unfold ThreadPoolExecutor.run.
  assert (Hinit : settled fn xs (([] : list event, replicate (length xs) (None : option (exn + B)))).2).
  { cbn [snd]. apply Forall2_replicate_r; [done|]. apply Forall_forall. intros x _. by left. }
  revert Hinit. generalize (([] : list event), replicate (length xs) (None : option (exn + B))).
  induction sched as [|i sched IH]; intros st Hst; [done|].
  cbn [foldl]. by apply IH, settled_complete.
Qed.

End executor.

Lemma await_outcome {A B} (fn : A -> M B) (xs : list A) (sl : ThreadPoolExecutor.slots B) :
  settled fn xs sl ->
  outcome (ThreadPoolExecutor.await fn xs sl) = outcome (for_each fn xs).
Proof.
  induction 1 as [|x s xs sl Hs _ IH]; [done|].
  cbn [ThreadPoolExecutor.await for_each]. rewrite !outcome_bind.
  assert (Hx : outcome (match s with Some r => ([], r) | None => fn x end) = outcome (fn x)).
  { by destruct Hs as [->| ->]. }
  rewrite Hx. destruct (outcome (fn x)); [done|]. by rewrite !outcome_bind, IH.
Qed.

(** Whatever the tasks' completion order, [map] hands over what the
    comprehension over the same items computes. *)
Lemma executor_map_outcome {A B} (sched : list nat) (fn : A -> M B) (xs : list A) :
  outcome (ThreadPoolExecutor.map sched fn xs) = outcome (for_each fn xs).
Proof.
  unfold ThreadPoolExecutor.map. rewrite outcome_bind. cbn [outcome snd].
  apply await_outcome, settled_run.
Qed.

(** ** The study resolver *)

Lemma for_each_datasets (v : program) (fs : filesystem) (children : list string) :
  outcome (for_each (QTLDataset.from_path v fs) children)
  = inr (List.map (dataset_at v fs) children).
Proof.
  rewrite for_each_outcome. induction children as [|c cs IH]; [done|].
  cbn [List.map collect]. rewrite from_path_outcome, IH. reflexivity.
Qed.

Lemma not_none_map {A B} (f : A -> option B) (l : list A) :
  not_none (List.map f l) = omap f l.
Proof.
  unfold not_none. induction l as [|x l IH]; [done|].
  cbn [List.map omap list_omap]. rewrite IH. by destruct (f x).
Qed.

Lemma study_from_path_run (p : string) :
  QTLStudy.from_path p =
  if study_survives p then ret (QTLStudy.mk (name_of p) p [])
  else raise (DatasetOrStudyNameError
                (if String.eqb (name_of p) "" then "Name has to be a non-empty string."
                 else "Name '" +:+ name_of p +:+ "' does not match pattern '^QTS\d+$'.")).
Proof.
  unfold QTLStudy.from_path, study_survives. fold (name_of p).
  rewrite study_validate_name_run.
  by destruct (Re.fullmatch study_pattern (name_of p)).
Qed.

Lemma get_datasets_outcome (v : program) (fs : filesystem) (self : QTLStudy.t) :
  outcome (QTLStudy.get_datasets v fs self) =
  match fs_ls fs (QTLStudy.path self) with
  | Some children =>
      inr (QTLStudy.mk (QTLStudy.id self) (QTLStudy.path self)
             (omap (dataset_at v fs) children))
  | None => inl (BackendError (QTLStudy.path self))
  end.
Proof.
  unfold QTLStudy.get_datasets, ls. rewrite !outcome_bind. cbn [emit outcome snd].
  destruct (fs_ls fs (QTLStudy.path self)) as [children|]; [|done].
  cbn [ret outcome snd]. rewrite outcome_bind, for_each_datasets.
  cbn [ret outcome snd]. by rewrite not_none_map.
Qed.

Lemma prepare_outcome (v : program) (fs : filesystem) (p : string) :
  outcome (QTLManifest._prepare_study_for_path v fs p) = study_at v fs p.
Proof.
  unfold QTLManifest._prepare_study_for_path, study_at.
  rewrite study_from_path_run. destruct (study_survives p).
  - rewrite bind_ret_l.
    pose proof (get_datasets_outcome v fs (QTLStudy.mk (name_of p) p [])) as Hg.
    cbn [QTLStudy.path QTLStudy.id] in Hg.
    destruct (QTLStudy.get_datasets v fs _) as [t [e|s]]; cbn [outcome snd] in Hg.
    + destruct (fs_ls fs p); [done|]. by injection Hg as ->.
    + destruct (fs_ls fs p); [|done]. by injection Hg as ->.
  - reflexivity.
Qed.

Lemma prepare_invalid_events (v : program) (fs : filesystem) (p : string) :
  study_survives p = false ->
  events (QTLManifest._prepare_study_for_path v fs p)
  = [Log WARNING (QTLManifest.skipping v p)].
Proof.
  intros Hp. unfold QTLManifest._prepare_study_for_path.
  by rewrite study_from_path_run, Hp.
Qed.

(** ** The manifest builder *)

Lemma transform_outcome (studies : list QTLStudy.t) :
  outcome (QTLManifest.transform studies)
  = inr (DataFrame.from_records (QTLManifest.records studies)).
Proof. reflexivity. Qed.

Lemma init_outcome (studies : list QTLStudy.t) :
  outcome (QTLManifest.init studies)
  = inr (QTLManifest.mk studies (DataFrame.from_records (QTLManifest.records studies))).
Proof. reflexivity. Qed.

Lemma from_gcs_path_outcome (v : program) (fs : filesystem) (sched : list nat) (root : string) :
  outcome (QTLManifest.from_gcs_path v fs sched root) =
  match fs_ls fs root with
  | Some paths =>
      match collect (List.map (study_at v fs) paths) with
      | inr result =>
          inr (QTLManifest.mk (not_none result)
                 (DataFrame.from_records (QTLManifest.records (not_none result))))
      | inl e => inl e
      end
  | None => inl (BackendError root)
  end.
Proof.
  unfold QTLManifest.from_gcs_path, ls. rewrite !outcome_bind. cbn [emit outcome snd].
  destruct (fs_ls fs root) as [paths|]; [|done].
  cbn [ret outcome snd]. rewrite outcome_bind. rewrite logger_info_emits. cbn [emit outcome snd].
  rewrite outcome_bind, executor_map_outcome, for_each_outcome.
  rewrite (map_ext _ (study_at v fs)) by (intros; apply prepare_outcome).
  destruct (collect _); [done|]. apply init_outcome.
Qed.

(** ** What a finished build holds *)

Lemma collect_inr {A B} (f : A -> exn + B) (xs : list A) (bs : list B) :
  collect (List.map f xs) = inr bs -> Forall2 (fun x b => f x = inr b) xs bs.
Proof.
  revert bs. induction xs as [|x xs IH]; intros bs; cbn [List.map collect].
  - intros [= <-]. constructor.
  - destruct (f x) as [e|b] eqn:Hx; [done|].
    destruct (collect (List.map f xs)) as [e|bs'] eqn:Hc; [done|].
    intros [= <-]. constructor; [done|by apply IH].
Qed.

Lemma collect_inl {A B} (f : A -> exn + B) (xs : list A) (e : exn) :
  collect (List.map f xs) = inl e -> exists x, x ∈ xs /\ f x = inl e.
Proof.
  induction xs as [|x xs IH]; cbn [List.map collect]; [done|].
  destruct (f x) as [e'|b] eqn:Hx.
  - intros [= <-]. exists x. split; [left|done].
  - destruct (collect (List.map f xs)) as [e'|bs'] eqn:Hc; [|done].
    intros [= <-]. destruct IH as (y & Hy & Hfy); [done|]. exists y. split; [by right|done].
Qed.

Lemma collect_total {A B} (f : A -> exn + B) (xs : list A) :
  (forall x, x ∈ xs -> exists b, f x = inr b) -> exists bs, collect (List.map f xs) = inr bs.
Proof.
  induction xs as [|x xs IH]; intros Hxs; cbn [List.map collect]; [by eexists|].
  destruct (Hxs x) as [b ->]; [left|].
  destruct IH as [bs ->]; [intros y Hy; apply Hxs; by right|]. by eexists.
Qed.

Lemma study_at_inl (v : program) (fs : filesystem) (p : string) (e : exn) :
  study_at v fs p = inl e -> e = BackendError p /\ fs_ls fs p = None.
Proof.
  unfold study_at. destruct (study_survives p); [|done].
  destruct (fs_ls fs p); [done|]. by intros [= <-].
Qed.

Lemma study_at_some (v : program) (fs : filesystem) (p : string) (s : QTLStudy.t) :
  study_at v fs p = inr (Some s) <->
  study_survives p = true /\
  exists children, fs_ls fs p = Some children
    /\ s = QTLStudy.mk (name_of p) p (omap (dataset_at v fs) children).
Proof.
  unfold study_at. destruct (study_survives p).
  - destruct (fs_ls fs p) as [children|].
    + split.
      * intros [= <-]. eauto.
      * intros (_ & ch & [= <-] & ->). done.
    + split; [done|]. by intros (_ & ch & ? & _).
  - split; [done|]. by intros [? _].
Qed.

Lemma study_at_none (v : program) (fs : filesystem) (p : string) :
  study_at v fs p = inr None <-> study_survives p = false.
Proof.
  unfold study_at. destruct (study_survives p); [|done].
  destruct (fs_ls fs p); split; done.
Qed.

Lemma finished_paths (v : program) (fs : filesystem)
    (paths : list string) (result : list (option QTLStudy.t)) :
  Forall2 (fun p r => study_at v fs p = inr r) paths result ->
  List.map QTLStudy.path (not_none result) = List.filter study_survives paths.
Proof.
  unfold not_none. induction 1 as [|p r ps rs Hp _ IH]; [done|].
  cbn [omap list_omap List.filter]. destruct r as [s|].
  - apply study_at_some in Hp as (-> & ch & _ & ->). cbn [List.map QTLStudy.path].
    by rewrite <- IH.
  - apply study_at_none in Hp as ->. apply IH.
Qed.

Lemma finished_studies (v : program) (fs : filesystem)
    (paths : list string) (result : list (option QTLStudy.t)) (s : QTLStudy.t) :
  Forall2 (fun p r => study_at v fs p = inr r) paths result ->
  s ∈ not_none result <-> exists p, p ∈ paths /\ study_at v fs p = inr (Some s).
Proof.
  unfold not_none. induction 1 as [|p r ps rs Hp _ IH].
  - split; [by intros ?%elem_of_nil|]. by intros (p & ?%elem_of_nil & _).
  - cbn [omap list_omap]. destruct r as [s'|].
    + rewrite elem_of_cons, IH. split.
      * intros [->|(q & Hq & Hs)]; [exists p; split; [left|done]|].
        exists q. split; [by right|done].
      * intros (q & [->|Hq]%elem_of_cons & Hs); [left; congruence|]. right. eauto.
    + rewrite IH. split.
      * intros (q & Hq & Hs). exists q. split; [by right|done].
      * intros (q & [->|Hq]%elem_of_cons & Hs); [congruence|]. eauto.
Qed.

Lemma from_gcs_path_finished (v : program) (fs : filesystem) (sched : list nat)
    (root : string) (m : QTLManifest.t) :
  outcome (QTLManifest.from_gcs_path v fs sched root) = inr m ->
  exists paths result,
    fs_ls fs root = Some paths
    /\ Forall2 (fun p r => study_at v fs p = inr r) paths result
    /\ m = QTLManifest.mk (not_none result)
             (DataFrame.from_records (QTLManifest.records (not_none result))).
Proof.
  rewrite from_gcs_path_outcome. destruct (fs_ls fs root) as [paths|]; [|done].
  destruct (collect _) as [e|result] eqn:Hc; [done|]. intros [= <-].
  exists paths, result. split; [done|]. split; [by apply collect_inr|done].
Qed.

Lemma from_gcs_path_succeeds (v : program) (fs : filesystem) (sched : list nat)
    (root : string) (paths : list string) :
  fs_ls fs root = Some paths ->
  (forall q, q ∈ paths -> study_survives q = true -> is_Some (fs_ls fs q)) ->
  exists m, outcome (QTLManifest.from_gcs_path v fs sched root) = inr m.
Proof.
  intros Hroot Hls. rewrite from_gcs_path_outcome, Hroot.
  destruct (collect_total (study_at v fs) paths) as [result ->]; [|by eexists].
  intros q Hq. unfold study_at. destruct (study_survives q) eqn:Hs; [|by eexists].
  destruct (Hls q Hq Hs) as [ch ->]. by eexists.
Qed.

Lemma from_gcs_path_no_name_error (v : program) (fs : filesystem) (sched : list nat)
    (root : string) :
  ~ raises_name_error (QTLManifest.from_gcs_path v fs sched root).
Proof.
  intros [msg H]. rewrite from_gcs_path_outcome in H.
  destruct (fs_ls fs root) as [paths|]; [|done].
  destruct (collect _) as [e|result] eqn:Hc; [|done]. injection H as ->.
  apply collect_inl in Hc as (q & _ & Hq). by apply study_at_inl in Hq as [? _].
Qed.

(** ** Datasets of a study *)

Lemma dataset_at_some (v : program) (fs : filesystem) (p : string) (d : QTLDataset.t) :
  dataset_at v fs p = Some d ->
  dataset_survives fs p = true /\ QTLDataset.id d = name_of p
  /\ Re.fullmatch dataset_pattern (QTLDataset.id d) = true.
Proof.
  unfold dataset_at. destruct (dataset_survives fs p) eqn:Hs; [|done].
  intros [= <-]. cbn [QTLDataset.id]. unfold dataset_survives in Hs.
  apply andb_true_iff in Hs as [[Hn _]%andb_true_iff _]. done.
Qed.

Lemma datasets_ids (v : program) (fs : filesystem) (children : list string) :
  List.map QTLDataset.id (omap (dataset_at v fs) children)
  = List.map name_of (List.filter (dataset_survives fs) children).
Proof.
  induction children as [|c cs IH]; [done|]. cbn [omap list_omap List.filter].
  unfold dataset_at at 1. destruct (dataset_survives fs c); [|done].
  cbn [List.map QTLDataset.id]. by rewrite <- IH.
Qed.

Lemma datasets_all_absent (v : program) (fs : filesystem) (children : list string) :
  (forall c, c ∈ children -> dataset_survives fs c = false) ->
  omap (dataset_at v fs) children = [].
Proof.
  induction children as [|c cs IH]; [done|]. intros Hall. cbn [omap list_omap].
  unfold dataset_at at 1. rewrite (Hall c) by left. apply IH. intros; apply Hall; by right.
Qed.

Lemma datasets_all_present (v : program) (fs : filesystem) (children : list string) :
  (forall c, c ∈ children -> dataset_survives fs c = true) ->
  length (omap (dataset_at v fs) children) = length children.
Proof.
  induction children as [|c cs IH]; [done|]. intros Hall. cbn [omap list_omap].
  unfold dataset_at at 1. rewrite (Hall c) by left. cbn [length]. f_equal.
  apply IH. intros; apply Hall; by right.
Qed.

(** ** The flat record set *)

Lemma records_pairs (studies : list QTLStudy.t) :
  QTLManifest.records studies
  = flat_map (fun s => List.map (record_of s) (QTLStudy.datasets s)) studies.
Proof. reflexivity. Qed.

Lemma records_keys (studies : list QTLStudy.t) :
  Forall (fun r => List.map fst r = column_order) (QTLManifest.records studies).
Proof.
  rewrite records_pairs. apply Forall_forall. intros r Hr.
  apply list_elem_of_In, in_flat_map in Hr as (s & _ & Hr).
  apply in_map_iff in Hr as (d & <- & _). reflexivity.
Qed.

Lemma uniq_keys (rs : list DataFrame.record) :
  Forall (fun r => List.map fst r = column_order) rs ->
  DataFrame.uniq (concat (List.map (List.map fst) rs))
  = match rs with [] => [] | _ => column_order end.
Proof.
  induction 1 as [|r rs Hr _ IH]; [done|].
  cbn [List.map concat]. rewrite Hr. unfold column_order at 1.
  cbn [app DataFrame.uniq]. rewrite IH. by destruct rs.
Qed.

Lemma rows_of_records (studies : list QTLStudy.t) :
  List.map (fun r => List.map (DataFrame.get r) column_order) (QTLManifest.records studies)
  = flat_map (fun s => List.map (row_of s) (QTLStudy.datasets s)) studies.
Proof.
  rewrite records_pairs. induction studies as [|s studies IH]; [done|].
  cbn [flat_map]. rewrite List.map_app, IH. f_equal.
  rewrite List.map_map. reflexivity.
Qed.

Lemma from_records_run (studies : list QTLStudy.t) :
  DataFrame.from_records (QTLManifest.records studies)
  = DataFrame.mk
      (match QTLManifest.records studies with [] => [] | _ => column_order end)
      (flat_map (fun s => List.map (row_of s) (QTLStudy.datasets s)) studies).
Proof.
  unfold DataFrame.from_records. rewrite (uniq_keys _ (records_keys studies)).
  destruct (QTLManifest.records studies) as [|r rs] eqn:Hrs.
  - f_equal. rewrite <- rows_of_records, Hrs. reflexivity.
  - f_equal. rewrite <- Hrs. apply rows_of_records.
Qed.

Lemma pairs_length {B} (f : QTLStudy.t -> QTLDataset.t -> B) (studies : list QTLStudy.t) (M : nat) :
  Forall (fun s => length (QTLStudy.datasets s) = M) studies ->
  length (flat_map (fun s => List.map (f s) (QTLStudy.datasets s)) studies)
  = length studies * M.
Proof.
  induction 1 as [|s studies Hs _ IH]; [done|].
  cbn [flat_map length]. rewrite length_app, length_map, IH, Hs. lia.
Qed.

(** ** The events of the tasks of the pool *)

Lemma logged_mono {A B} (fn : A -> M B) (xs : list A) (log log' : list event)
    (sl : ThreadPoolExecutor.slots B) :
  logged fn xs log sl -> logged fn xs (log ++ log') sl.
Proof.
  intros H. eapply Forall2_impl; [exact H|]. intros x s [->|[-> Hlog]]; [by left|right].
  split; [done|]. intros e He. apply elem_of_app. left. by apply Hlog.
Qed.

Lemma logged_complete {A B} (fn : A -> M B) (xs : list A)
    (st : list event * ThreadPoolExecutor.slots B) (i : nat) :
  logged fn xs st.1 st.2 ->
  logged fn xs (ThreadPoolExecutor.complete fn xs st i).1
    (ThreadPoolExecutor.complete fn xs st i).2.
Proof.
  intros Hst. unfold ThreadPoolExecutor.complete.
  destruct (xs !! i) as [x|] eqn:Hx; [|done].
  destruct (st.2 !! i) as [[r|]|] eqn:Hs; [done| |done].
  cbn [fst snd]. unfold logged. rewrite <- (list_insert_id xs i x Hx).
  apply Forall2_insert; [by apply logged_mono|].
  right. split; [done|]. intros e He. apply elem_of_app. by right.
Qed.

Lemma logged_run {A B} (fn : A -> M B) (xs : list A) (sched : list nat) :
  logged fn xs (ThreadPoolExecutor.run fn xs sched).1 (ThreadPoolExecutor.run fn xs sched).2.
Proof.
  unfold ThreadPoolExecutor.run.
  assert (Hinit : logged fn xs
                    (([] : list event, replicate (length xs) (None : option (exn + B)))).1
                    (([] : list event, replicate (length xs) (None : option (exn + B)))).2).
  { cbn [fst snd]. apply Forall2_replicate_r; [done|]. apply Forall_forall. intros x _. by left. }
  revert Hinit. generalize (([] : list event), replicate (length xs) (None : option (exn + B))).
  induction sched as [|i sched IH]; intros st Hst; [done|].
  cbn [foldl]. by apply IH, logged_complete.
Qed.

Lemma await_events {A B} (fn : A -> M B) (xs : list A) (log : list event)
    (sl : ThreadPoolExecutor.slots B) (bs : list B) :
  logged fn xs log sl ->
  outcome (ThreadPoolExecutor.await fn xs sl) = inr bs ->
  forall x e, x ∈ xs -> e ∈ events (fn x) ->
    e ∈ log ++ events (ThreadPoolExecutor.await fn xs sl).
Proof.
  intros Hl. revert bs. induction Hl as [|x s xs sl Hs _ IH]; intros bs Hout y e Hy He.
  { by apply elem_of_nil in Hy. }
  cbn [ThreadPoolExecutor.await] in *. rewrite outcome_bind in Hout. rewrite events_bind.
  destruct (outcome (match s with Some r => ([], r) | None => fn x end)) as [err|b] eqn:Hb;
    [done|].
  rewrite outcome_bind in Hout. rewrite events_bind.
  destruct (outcome (ThreadPoolExecutor.await fn xs sl)) as [err|bs'] eqn:Hrest; [done|].
  apply elem_of_cons in Hy as [->|Hy].
  - destruct Hs as [->|[-> Hlog]].
    + apply elem_of_app. right. apply elem_of_app. by left.
    + apply elem_of_app. left. by apply Hlog.
  - specialize (IH bs' eq_refl y e Hy He). apply elem_of_app in IH as [IH|IH].
    + apply elem_of_app. by left.
    + apply elem_of_app. right. apply elem_of_app. right. apply elem_of_app. by left.
Qed.

(** When [map] hands over all the results, every task has run. *)
Lemma executor_map_events {A B} (sched : list nat) (fn : A -> M B) (xs : list A)
    (bs : list B) :
  outcome (ThreadPoolExecutor.map sched fn xs) = inr bs ->
  forall x e, x ∈ xs -> e ∈ events (fn x) ->
    e ∈ events (ThreadPoolExecutor.map sched fn xs).
Proof.
  unfold ThreadPoolExecutor.map. rewrite outcome_bind, events_bind. cbn [outcome events fst snd].
  intros Hout x e Hx He.
  by apply (await_events fn xs _ _ bs (logged_run fn xs sched) Hout x e).
Qed.

Lemma ls_run (fs : filesystem) (p : string) :
  ls fs p = ([Ls p], match fs_ls fs p with
                     | Some children => inr children
                     | None => inl (BackendError p)
                     end).
Proof. unfold ls. by destruct (fs_ls fs p). Qed.

Lemma from_gcs_path_task_events (v : program) (fs : filesystem) (sched : list nat)
    (root : string) (paths : list string) (m : QTLManifest.t) :
  fs_ls fs root = Some paths ->
  outcome (QTLManifest.from_gcs_path v fs sched root) = inr m ->
  forall p e, p ∈ paths -> e ∈ events (QTLManifest._prepare_study_for_path v fs p) ->
    e ∈ events (QTLManifest.from_gcs_path v fs sched root).
Proof.
  unfold QTLManifest.from_gcs_path. intros Hroot. rewrite ls_run, Hroot.
  rewrite outcome_bind, events_bind. cbn [outcome events fst snd].
  rewrite logger_info_emits, outcome_bind, events_bind. cbn [emit outcome events fst snd].
  rewrite outcome_bind, events_bind.
  destruct (outcome (ThreadPoolExecutor.map sched _ paths)) as [err|bs] eqn:Hmap; [done|].
  intros _ p e Hp He.
  apply elem_of_app. right. apply elem_of_app. right.
  apply elem_of_app. left. by apply (executor_map_events _ _ _ bs Hmap p).
Qed.

(** ** Further facts the claims use *)

Lemma validated_dataset_id (path id : string) :
  outcome (QTLDataset._validate_name (name_of path)) = inr id ->
  id = name_of path /\ Re.fullmatch dataset_pattern (name_of path) = true.
Proof.
  rewrite dataset_validate_name_run.
  destruct (Re.fullmatch dataset_pattern (name_of path)); [|done]. by intros [= <-].
Qed.

Lemma append_assoc (a b c : string) : (a +:+ b) +:+ c = a +:+ b +:+ c.
Proof.
  induction a as [|x a IH]; [done|].
  change (String x (a +:+ b) +:+ c = String x (a +:+ b +:+ c)).
  change (String x ((a +:+ b) +:+ c) = String x (a +:+ b +:+ c)). by rewrite IH.
Qed.

Lemma dataset_id_no_slash (id : string) :
  Re.fullmatch dataset_pattern id = true -> has_char "/" id = false.
Proof. intros H%dataset_pattern_numbered. by apply (numbered_no_char "/" "QTD"). Qed.

Lemma schedule_irrelevant (v : program) (fs : filesystem) (sched sched' : list nat)
    (root : string) :
  outcome (QTLManifest.from_gcs_path v fs sched root)
  = outcome (QTLManifest.from_gcs_path v fs sched' root).
Proof. by rewrite !from_gcs_path_outcome. Qed.

Lemma filter_all {A} (f : A -> bool) (l : list A) :
  (forall x, x ∈ l -> f x = true) -> List.filter f l = l.
Proof.
  induction l as [|x l IH]; [done|]. intros Hall. cbn [List.filter].
  rewrite (Hall x) by left. f_equal. apply IH. intros; apply Hall; by right.
Qed.

Lemma built_study_ids (v : program) (fs : filesystem) (sched : list nat) (root : string)
    (m : QTLManifest.t) (s : QTLStudy.t) :
  outcome (QTLManifest.from_gcs_path v fs sched root) = inr m ->
  s ∈ QTLManifest.studies m ->
  Re.fullmatch study_pattern (QTLStudy.id s) = true
  /\ forall d, d ∈ QTLStudy.datasets s ->
       Re.fullmatch dataset_pattern (QTLDataset.id d) = true.
Proof.
  intros Hm Hs. apply from_gcs_path_finished in Hm as (paths & result & _ & Hres & ->).
  cbn [QTLManifest.studies] in Hs.
  apply (finished_studies _ _ _ _ s Hres) in Hs as (q & _ & Hs).
  apply study_at_some in Hs as (Hq & ch & _ & ->). cbn [QTLStudy.id QTLStudy.datasets].
  split; [done|]. intros d Hd. apply list_elem_of_omap in Hd as (c & _ & Hd).
  by apply dataset_at_some in Hd as (_ & _ & ?).
Qed.

Lemma study_of_finished (v : program) (fs : filesystem) (q : string)
    (r : option QTLStudy.t) :
  study_at v fs q = inr r -> study_of v fs q = r.
Proof.
  unfold study_at, study_of, children_of.
  destruct (study_survives q); [|by intros [= <-]].
  destruct (fs_ls fs q); [by intros [= <-]|done].
Qed.

Lemma finished_exact (v : program) (fs : filesystem)
    (paths : list string) (result : list (option QTLStudy.t)) :
  Forall2 (fun p r => study_at v fs p = inr r) paths result ->
  not_none result = omap (study_of v fs) paths.
Proof.
  unfold not_none. induction 1 as [|q r qs rs Hq _ IH]; [done|].
  cbn [omap list_omap]. by rewrite (study_of_finished v fs q r Hq), IH.
Qed.

Lemma omap_without {B} (f : string -> option B) (p : string) (paths : list string) :
  f p = None -> omap f (without p paths) = omap f paths.
Proof.
  intros Hp. unfold without. induction paths as [|q qs IH]; [done|].
  cbn [List.filter omap list_omap]. destruct (String.eqb_spec q p) as [->|Hne]; cbn [negb].
  - by rewrite Hp.
  - cbn [omap list_omap]. by rewrite IH.
Qed.

Lemma filter_without (p : string) (paths : list string) :
  study_survives p = false ->
  List.filter study_survives (without p paths) = List.filter study_survives paths.
Proof.
  intros Hp. unfold without. induction paths as [|q qs IH]; [done|].
  cbn [List.filter]. destruct (String.eqb_spec q p) as [->|Hne]; cbn [negb].
  - by rewrite Hp.
  - cbn [List.filter]. by rewrite IH.
Qed.

(** ** The claims *)

(** C1.  [QTLDataset.from_path] never raises; it returns [None] when the
    trailing segment of the path fails the validation of dataset names,
    and when either of the two artifacts does not exist; it returns a
    dataset only when the name is valid and both artifacts exist, and then
    every field of the dataset is set: the identifier and the two paths. *)
Theorem from_path_absent_or_complete (v : program) (fs : filesystem) (path : string) :
  (exists r, outcome (QTLDataset.from_path v fs path) = inr r)
  /\ (raises_name_error (QTLDataset._validate_name (name_of path)) ->
      outcome (QTLDataset.from_path v fs path) = inr None)
  /\ (fs_exists fs (cs_path path (name_of path)) = false
      \/ fs_exists fs (lbf_path path (name_of path)) = false ->
      outcome (QTLDataset.from_path v fs path) = inr None)
  /\ (forall d, outcome (QTLDataset.from_path v fs path) = inr (Some d) ->
      outcome (QTLDataset._validate_name (name_of path)) = inr (QTLDataset.id d)
      /\ fs_exists fs (cs_path path (name_of path)) = true
      /\ fs_exists fs (lbf_path path (name_of path)) = true
      /\ d = QTLDataset.mk (name_of path)
               (stored v (cs_path path (name_of path)))
               (stored v (lbf_path path (name_of path))))
  /\ (outcome (QTLDataset._validate_name (name_of path)) = inr (name_of path) ->
      fs_exists fs (cs_path path (name_of path)) = true ->
      fs_exists fs (lbf_path path (name_of path)) = true ->
      exists d, outcome (QTLDataset.from_path v fs path) = inr (Some d)).
Proof.
  rewrite from_path_outcome, dataset_validate_name_run. unfold dataset_survives, raises_name_error.
  destruct (Re.fullmatch dataset_pattern (name_of path)) eqn:Hm; cbn [andb].
  - split; [by eexists|]. split; [by intros [msg ?]|].
    destruct (fs_exists fs (cs_path path (name_of path))),
      (fs_exists fs (lbf_path path (name_of path))); cbn [andb].
    + split; [by intros [?|?]|]. split; [by intros d [= <-]|]. by eexists.
    + split; [done|]. split; [done|]. done.
    + split; [done|]. split; [done|]. done.
    + split; [done|]. split; [done|]. done.
  - split; [by eexists|]. split; [done|]. split; [done|]. split; [done|]. done.
Qed.

Lemma from_path_absent_or_complete_witness :
  outcome (QTLDataset.from_path Bin Demo.fs "bucket/root/QTS1/QTD2") = inr None
  /\ outcome (QTLDataset.from_path Tools Demo.fs "bucket/root/QTS1/notes") = inr None
  /\ exists d, outcome (QTLDataset.from_path Tools Demo.fs "bucket/root/QTS1/QTD1") = inr (Some d).
Proof.
  split; [|split].
  - destruct (from_path_absent_or_complete Bin Demo.fs "bucket/root/QTS1/QTD2")
      as (_ & _ & H & _).
    apply H. right. reflexivity.
  - destruct (from_path_absent_or_complete Tools Demo.fs "bucket/root/QTS1/notes")
      as (_ & H & _).
    apply H. eexists. reflexivity.
  - destruct (from_path_absent_or_complete Tools Demo.fs "bucket/root/QTS1/QTD1")
      as (_ & _ & _ & _ & H).
    apply H; reflexivity.
Defined.

(** C2.  [validate_name s p] raises [DatasetOrStudyNameError] exactly when
    [s] is empty or the whole of [s] does not match [p]; otherwise it
    returns [s] itself, and does nothing else.  For the two patterns of the
    programs a whole match means the three letters followed by one or more
    digits and nothing before, between or after. *)
Theorem validate_name_spec (s : string) (p : Re.regex) :
  (raises_name_error (validate_name s p) <-> s = "" \/ Re.fullmatch p s = false)
  /\ (s <> "" -> Re.fullmatch p s = true -> validate_name s p = ret s)
  /\ (forall r, outcome (validate_name s p) = inr r -> r = s)
  /\ (Re.fullmatch dataset_pattern s = true <-> numbered "QTD" s)
  /\ (Re.fullmatch study_pattern s = true <-> numbered "QTS" s).
Proof.
  rewrite validate_name_run. unfold raises_name_error.
  destruct (String.eqb_spec s "") as [->|Hne].
  - split; [split; [by left|by eexists]|].
    split; [done|]. split; [done|].
    split; [apply dataset_pattern_numbered|apply study_pattern_numbered].
  - destruct (Re.fullmatch p s) eqn:Hm.
    + split; [split; [by intros [msg ?]|by intros [?|?]]|].
      split; [done|]. split; [by intros r [= <-]|].
      split; [apply dataset_pattern_numbered|apply study_pattern_numbered].
    + split; [split; [by right|by eexists]|].
      split; [done|]. split; [done|].
      split; [apply dataset_pattern_numbered|apply study_pattern_numbered].
Qed.

Lemma validate_name_spec_witness :
  validate_name "QTD7" dataset_pattern = ret "QTD7".
Proof.
  apply (proj1 (proj2 (validate_name_spec "QTD7" dataset_pattern))).
  - discriminate.
  - reflexivity.
Defined.

(** C3.  For a child [p] of the root whose trailing segment is not a valid
    study name: [QTLStudy.from_path p] raises [DatasetOrStudyNameError];
    the task of [p] catches it, logs one warning and returns [None]; the
    build never ends with [DatasetOrStudyNameError], and it finishes
    whenever every validly named child of the root can be listed.  A
    finished build has logged that warning and holds no study of path
    [p]; its studies are exactly those of the listing without [p]: for
    every other child with a valid study name, in listing order, the study
    of that name and path with the datasets of its children that survive,
    and nothing for the children with an invalid name. *)
Theorem invalid_study_excluded (v : program) (fs : filesystem) (sched : list nat)
    (root : string) (paths : list string) (p : string) :
  fs_ls fs root = Some paths -> p ∈ paths -> study_survives p = false ->
  raises_name_error (QTLStudy.from_path p)
  /\ QTLManifest._prepare_study_for_path v fs p
     = ([Log WARNING (QTLManifest.skipping v p)], inr None)
  /\ ~ raises_name_error (QTLManifest.from_gcs_path v fs sched root)
  /\ ((forall q, q ∈ paths -> study_survives q = true -> is_Some (fs_ls fs q)) ->
      exists m, outcome (QTLManifest.from_gcs_path v fs sched root) = inr m)
  /\ forall m, outcome (QTLManifest.from_gcs_path v fs sched root) = inr m ->
       Log WARNING (QTLManifest.skipping v p)
         ∈ events (QTLManifest.from_gcs_path v fs sched root)
       /\ (p ∉ List.map QTLStudy.path (QTLManifest.studies m))
       /\ QTLManifest.studies m = omap (study_of v fs) (without p paths)
       /\ List.map QTLStudy.path (QTLManifest.studies m)
          = List.filter study_survives (without p paths)
       /\ (forall q, q ∈ paths -> study_survives q = true ->
             exists children,
               fs_ls fs q = Some children
               /\ QTLStudy.mk (name_of q) q (omap (dataset_at v fs) children)
                    ∈ QTLManifest.studies m)
       /\ forall s, s ∈ QTLManifest.studies m <->
            exists q, q ∈ paths /\ q <> p
              /\ outcome (QTLManifest._prepare_study_for_path v fs q) = inr (Some s).
Proof.
  intros Hroot Hp Hbad. split; [|split; [|split; [|split]]].
  - rewrite study_from_path_run, Hbad. by eexists.
  - pose proof (prepare_invalid_events v fs p Hbad) as He.
    pose proof (prepare_outcome v fs p) as Ho.
    rewrite (proj2 (study_at_none v fs p) Hbad) in Ho.
    destruct (QTLManifest._prepare_study_for_path v fs p) as [t r].
    cbn [events outcome fst snd] in *. by subst.
  - apply from_gcs_path_no_name_error.
  - intros Hall. by apply (from_gcs_path_succeeds v fs sched root paths).
  - intros m Hm. split.
    { apply (from_gcs_path_task_events v fs sched root paths m Hroot Hm p); [done|].
      rewrite (prepare_invalid_events v fs p Hbad). by left. }
    apply from_gcs_path_finished in Hm as (paths' & result & Hroot' & Hres & ->).
    rewrite Hroot in Hroot'. injection Hroot' as <-. cbn [QTLManifest.studies].
    assert (Hnone : study_of v fs p = None) by (unfold study_of; by rewrite Hbad).
    split; [|split; [|split; [|split]]].
    + rewrite (finished_paths _ _ _ _ Hres). intros Hin%list_elem_of_In%filter_In.
      destruct Hin as [_ Hin]. congruence.
    + by rewrite (finished_exact v fs paths result Hres), omap_without.
    + by rewrite (finished_paths _ _ _ _ Hres), filter_without.
    + intros q Hq Hs.
      assert (Hin : q ∈ List.map QTLStudy.path (not_none result)).
      { rewrite (finished_paths _ _ _ _ Hres). apply list_elem_of_In, filter_In.
        split; [by apply list_elem_of_In|done]. }
      apply list_elem_of_In, in_map_iff in Hin as (s & Hpath & Hin).
      apply list_elem_of_In in Hin. pose proof Hin as Hin'.
      apply (finished_studies _ _ _ _ s Hres) in Hin' as (q' & _ & Hq').
      apply study_at_some in Hq' as (_ & ch & Hls & ->). cbn [QTLStudy.path] in Hpath.
      subst q'. by exists ch.
    + intros s. rewrite (finished_studies _ _ _ _ s Hres). split.
      * intros (q & Hq & Hs). exists q. split; [done|]. rewrite prepare_outcome.
        split; [|done]. intros ->.
        rewrite (proj2 (study_at_none v fs p) Hbad) in Hs. done.
      * intros (q & Hq & _ & Hs). exists q. by rewrite <- prepare_outcome.
Qed.

Lemma invalid_study_excluded_witness :
  QTLManifest._prepare_study_for_path Bin Demo.fs "bucket/root/bad-name"
  = ([Log WARNING "Skipping invalid study path 'bucket/root/bad-name'"], inr None)
  /\ exists m, outcome (QTLManifest.from_gcs_path Bin Demo.fs [1; 2] "bucket/root") = inr m
       /\ QTLManifest.studies m
          = [ QTLStudy.mk "QTS1" "bucket/root/QTS1"
                [QTLDataset.mk "QTD1" "bucket/root/QTS1/QTD1/QTD1.credible_sets.parquet"
                   "bucket/root/QTS1/QTD1/QTD1.lbf_variable.parquet"];
              QTLStudy.mk "QTS2" "bucket/root/QTS2" [] ].
Proof.
  assert (Hin : "bucket/root/bad-name"
                ∈ ["bucket/root/QTS1"; "bucket/root/bad-name"; "bucket/root/QTS2"]).
  { apply list_elem_of_In. right. left. reflexivity. }
  destruct (invalid_study_excluded Bin Demo.fs [1; 2] "bucket/root" _
              "bucket/root/bad-name" eq_refl Hin eq_refl)
    as (_ & Htask & _ & Hfin & Hbuilt).
  split; [exact Htask|].
  destruct Hfin as [m Hm].
  { intros q Hq Hs. apply list_elem_of_In in Hq. simpl in Hq.
    destruct Hq as [<-|[<-|[<-|[]]]]; [by eexists|discriminate Hs|by eexists]. }
  exists m. split; [exact Hm|].
  exact (proj1 (proj2 (proj2 (Hbuilt m Hm)))).
Defined.

(** C4.  Whatever the order in which the tasks of the pool complete, a
    finished build holds the same manifest; the paths of its studies are
    the children of the root that survive, in listing order; and the
    datasets of each study are those of the children of the study that
    survive, in listing order. *)
Theorem listing_order_preserved (v : program) (fs : filesystem) (sched : list nat)
    (root : string) (paths : list string) (m : QTLManifest.t) :
  fs_ls fs root = Some paths ->
  outcome (QTLManifest.from_gcs_path v fs sched root) = inr m ->
  (forall sched', outcome (QTLManifest.from_gcs_path v fs sched' root) = inr m)
  /\ List.map QTLStudy.path (QTLManifest.studies m) = List.filter study_survives paths
  /\ forall s, s ∈ QTLManifest.studies m ->
       exists children,
         fs_ls fs (QTLStudy.path s) = Some children
         /\ QTLStudy.datasets s = omap (dataset_at v fs) children
         /\ List.map QTLDataset.id (QTLStudy.datasets s)
            = List.map name_of (List.filter (dataset_survives fs) children).
Proof.
  intros Hroot Hm. split; [|split].
  - intros sched'. by rewrite (schedule_irrelevant v fs sched' sched).
  - apply from_gcs_path_finished in Hm as (paths' & result & Hroot' & Hres & ->).
    rewrite Hroot in Hroot'. injection Hroot' as <-.
    exact (finished_paths v fs _ _ Hres).
  - apply from_gcs_path_finished in Hm as (paths' & result & Hroot' & Hres & ->).
    intros s Hs. cbn [QTLManifest.studies] in Hs.
    apply (finished_studies _ _ _ _ s Hres) in Hs as (q & _ & Hq).
    apply study_at_some in Hq as (_ & children & Hls & ->).
    exists children. cbn [QTLStudy.path QTLStudy.datasets].
    split; [done|]. split; [done|]. apply datasets_ids.
Qed.

Lemma listing_order_preserved_witness :
  exists m, outcome (QTLManifest.from_gcs_path Bin Demo.fs [2; 0; 1] "bucket/root") = inr m
    /\ List.map QTLStudy.path (QTLManifest.studies m)
       = ["bucket/root/QTS1"; "bucket/root/QTS2"].
Proof.
  destruct (outcome (QTLManifest.from_gcs_path Bin Demo.fs [2; 0; 1] "bucket/root"))
    as [e|m] eqn:Hm; [vm_compute in Hm; discriminate Hm|].
  exists m. split; [reflexivity|].
  exact (proj1 (proj2 (listing_order_preserved Bin Demo.fs [2; 0; 1] "bucket/root" _ m
                         eq_refl Hm))).
Defined.

(** C5.  When the root lists [N] children, all with a valid study name,
    and each of them lists [M] children, all with a valid dataset name and
    both artifacts present, the build finishes with [N] studies and a
    flat record set of [N * M] rows, one for each dataset of each study in
    order, and the keys of every record come in the order [study_id],
    [dataset_id], [susie_cs_path], [susie_lbf_path], which is also the
    order of the columns of the frame when there is a row. *)
Theorem full_tree_counts (v : program) (fs : filesystem) (sched : list nat)
    (root : string) (paths : list string) (N M : nat) :
  fs_ls fs root = Some paths -> length paths = N ->
  (forall p, p ∈ paths ->
     study_survives p = true
     /\ exists children, fs_ls fs p = Some children /\ length children = M
          /\ forall c, c ∈ children -> dataset_survives fs c = true) ->
  exists m, outcome (QTLManifest.from_gcs_path v fs sched root) = inr m
    /\ length (QTLManifest.studies m) = N
    /\ length (QTLManifest.records (QTLManifest.studies m)) = N * M
    /\ length (DataFrame.rows (QTLManifest.df m)) = N * M
    /\ DataFrame.rows (QTLManifest.df m)
       = flat_map (fun s => List.map (row_of s) (QTLStudy.datasets s)) (QTLManifest.studies m)
    /\ (forall r, r ∈ QTLManifest.records (QTLManifest.studies m) ->
          List.map fst r = column_order)
    /\ (0 < N * M -> DataFrame.columns (QTLManifest.df m) = column_order).
Proof.
  intros Hroot HN Hfull.
  destruct (from_gcs_path_succeeds v fs sched root paths Hroot) as [m Hm].
  { intros q Hq _. destruct (Hfull q Hq) as (_ & ch & -> & _). by eexists. }
  exists m. split; [done|].
  apply from_gcs_path_finished in Hm as (paths' & result & Hroot' & Hres & ->).
  rewrite Hroot in Hroot'. injection Hroot' as <-.
  cbn [QTLManifest.studies QTLManifest.df]. rewrite from_records_run.
  cbn [DataFrame.rows DataFrame.columns].
  assert (Hlen : length (not_none result) = N).
  { rewrite <- HN, <- (length_map QTLStudy.path), (finished_paths v fs _ _ Hres).
    rewrite filter_all; [done|]. intros q Hq. by destruct (Hfull q Hq). }
  assert (HM : Forall (fun s => length (QTLStudy.datasets s) = M) (not_none result)).
  { apply Forall_forall. intros s Hs.
    apply (finished_studies _ _ _ _ s Hres) in Hs as (q & Hq & Hs).
    apply study_at_some in Hs as (_ & ch & Hch & ->).
    destruct (Hfull q Hq) as (_ & ch' & Hch' & <- & Hall).
    rewrite Hch in Hch'. injection Hch' as <-. by apply datasets_all_present. }
  assert (Hrec : length (QTLManifest.records (not_none result)) = N * M).
  { by rewrite records_pairs, (pairs_length _ _ M HM), Hlen. }
  split; [done|]. split; [done|].
  split; [by rewrite (pairs_length _ _ M HM), Hlen|]. split; [done|]. split.
  - intros r Hr. pose proof (records_keys (not_none result)) as Hk.
    rewrite Forall_forall in Hk. by apply Hk.
  - intros Hpos. destruct (QTLManifest.records (not_none result)); [|done].
    simpl in Hrec. lia.
Qed.

Lemma full_tree_counts_witness :
  exists m, outcome (QTLManifest.from_gcs_path Tools Full.fs [1] "data") = inr m
    /\ length (QTLManifest.studies m) = 2
    /\ length (DataFrame.rows (QTLManifest.df m)) = 6
    /\ DataFrame.columns (QTLManifest.df m)
       = ["study_id"; "dataset_id"; "susie_cs_path"; "susie_lbf_path"].
Proof.
  destruct (full_tree_counts Tools Full.fs [1] "data" ["data/QTS1"; "data/QTS2"] 2 3
              eq_refl eq_refl) as (m & Hm & HN & _ & HNM & _ & _ & Hcol).
  - intros p Hp. apply list_elem_of_In in Hp. simpl in Hp.
    destruct Hp as [<-|[<-|[]]]; (split; [reflexivity|]); eexists;
      (split; [reflexivity|]); (split; [reflexivity|]);
      intros c Hc; apply list_elem_of_In in Hc; simpl in Hc;
      destruct Hc as [<-|[<-|[<-|[]]]]; reflexivity.
  - exists m. split; [exact Hm|]. split; [exact HN|]. split; [exact HNM|].
    apply Hcol. simpl. lia.
Defined.

(** C6.  When the trailing segment [id] of [path] is a valid dataset name,
    the existence queries are about [path/id.credible_sets.parquet], first,
    and [path/id.lbf_variable.parquet] and nothing else.  When both exist,
    [Bin] stores exactly these two paths in the dataset; [Tools] stores,
    for each, the path made of its last three segments, which is
    [study/id/file] for a path that ends in [/study/id]. *)
Theorem artifact_paths (v : program) (fs : filesystem) (path id : string) :
  outcome (QTLDataset._validate_name (name_of path)) = inr id ->
  let cs := path +:+ "/" +:+ id +:+ ".credible_sets.parquet" in
  let lbf := path +:+ "/" +:+ id +:+ ".lbf_variable.parquet" in
  (exists qs, exists_queries (events (QTLDataset.from_path v fs path)) = cs :: qs
              /\ (qs = [] \/ qs = [lbf]))
  /\ (fs_exists fs cs = true -> fs_exists fs lbf = true ->
      exists_queries (events (QTLDataset.from_path v fs path)) = [cs; lbf]
      /\ exists d, outcome (QTLDataset.from_path v fs path) = inr (Some d)
         /\ QTLDataset.id d = id
         /\ match v with
            | Bin => QTLDataset.susie_cs_path d = cs /\ QTLDataset.susie_lbf_path d = lbf
            | Tools =>
                Py.split (QTLDataset.susie_cs_path d) "/" = Py.last_items 3 (Py.split cs "/")
                /\ Py.split (QTLDataset.susie_lbf_path d) "/" = Py.last_items 3 (Py.split lbf "/")
                /\ forall pre study,
                     has_char "/" study = false ->
                     path = pre +:+ "/" +:+ study +:+ "/" +:+ id ->
                     QTLDataset.susie_cs_path d
                       = study +:+ "/" +:+ id +:+ "/" +:+ id +:+ ".credible_sets.parquet"
                     /\ QTLDataset.susie_lbf_path d
                       = study +:+ "/" +:+ id +:+ "/" +:+ id +:+ ".lbf_variable.parquet"
            end).
Proof.
  intros [-> Hm]%validated_dataset_id. cbv zeta.
  fold (cs_path path (name_of path)) (lbf_path path (name_of path)).
  rewrite from_path_queries, from_path_outcome, Hm. unfold dataset_survives. rewrite Hm.
  split.
  - destruct (fs_exists fs (cs_path path (name_of path))); eexists; split; eauto.
  - intros -> ->. split; [done|]. eexists. split; [done|]. split; [done|].
    destruct v; cbn [stored QTLDataset.susie_cs_path QTLDataset.susie_lbf_path]; [done|].
    split; [apply split_truncated|]. split; [apply split_truncated|].
    intros pre study Hstudy Hpath.
    pose proof (dataset_id_no_slash _ Hm) as Hid.
    revert Hid Hpath. generalize (name_of path) as id. intros id Hid ->.
    unfold truncated, cs_path, lbf_path. rewrite !append_assoc.
    split; apply truncate_three; try done; by rewrite has_char_app, Hid.
Qed.

Lemma artifact_paths_witness :
  exists d, outcome (QTLDataset.from_path Tools Demo.fs "bucket/root/QTS1/QTD1") = inr (Some d)
    /\ QTLDataset.susie_cs_path d = "QTS1/QTD1/QTD1.credible_sets.parquet".
Proof.
  destruct (artifact_paths Tools Demo.fs "bucket/root/QTS1/QTD1" "QTD1" eq_refl) as [_ H].
  destruct (H eq_refl eq_refl) as (_ & d & Hd & _ & _ & _ & Hp).
  exists d. split; [exact Hd|].
  exact (proj1 (Hp "bucket/root" "QTS1" eq_refl eq_refl)).
Defined.

(** C7.  A child [p] of the root with a valid study name, whose listing
    succeeds and holds no child that survives as a dataset, makes its task
    return the study of [p] with no dataset; that study is in the manifest
    of every finished build; and the build finishes whenever the listing of
    every validly named child of the root succeeds. *)
Theorem empty_study_retained (v : program) (fs : filesystem) (sched : list nat)
    (root : string) (paths : list string) (p : string) (children : list string) :
  fs_ls fs root = Some paths -> p ∈ paths -> study_survives p = true ->
  fs_ls fs p = Some children ->
  (forall c, c ∈ children -> dataset_survives fs c = false) ->
  outcome (QTLManifest._prepare_study_for_path v fs p)
  = inr (Some (QTLStudy.mk (name_of p) p []))
  /\ (forall m, outcome (QTLManifest.from_gcs_path v fs sched root) = inr m ->
        QTLStudy.mk (name_of p) p [] ∈ QTLManifest.studies m)
  /\ ((forall q, q ∈ paths -> study_survives q = true -> is_Some (fs_ls fs q)) ->
      exists m, outcome (QTLManifest.from_gcs_path v fs sched root) = inr m).
Proof.
  intros Hroot Hp Hname Hls Habsent.
  assert (Hat : study_at v fs p = inr (Some (QTLStudy.mk (name_of p) p []))).
  { apply study_at_some. split; [done|]. exists children. split; [done|].
    by rewrite datasets_all_absent. }
  split; [by rewrite prepare_outcome|]. split.
  - intros m Hm. apply from_gcs_path_finished in Hm as (paths' & result & Hroot' & Hres & ->).
    rewrite Hroot in Hroot'. injection Hroot' as <-. cbn [QTLManifest.studies].
    apply (finished_studies _ _ _ _ _ Hres). eauto.
  - intros Hall. by apply (from_gcs_path_succeeds v fs sched root paths).
Qed.

Lemma empty_study_retained_witness :
  exists m, outcome (QTLManifest.from_gcs_path Bin Demo.fs [] "bucket/root") = inr m
    /\ QTLStudy.mk "QTS2" "bucket/root/QTS2" [] ∈ QTLManifest.studies m.
Proof.
  destruct (outcome (QTLManifest.from_gcs_path Bin Demo.fs [] "bucket/root"))
    as [e|m] eqn:Hm; [vm_compute in Hm; discriminate Hm|].
  exists m. split; [reflexivity|].
  refine (proj1 (proj2 (empty_study_retained Bin Demo.fs [] "bucket/root" _
                          "bucket/root/QTS2" [] eq_refl _ eq_refl eq_refl _)) m Hm).
  - apply list_elem_of_In. right. right. left. reflexivity.
  - intros c Hc. apply elem_of_nil in Hc. destruct Hc.
Defined.

(** C8.  Two builds over the same storage end the same way, with the same
    manifest and so the same flat record set, whatever the completion
    order of the tasks in each; and the flat record set a manifest holds is
    what [transform] computes again from its studies, which depends on the
    studies alone. *)
Theorem build_deterministic (v : program) (fs : filesystem) (sched1 sched2 : list nat)
    (root : string) :
  outcome (QTLManifest.from_gcs_path v fs sched1 root)
  = outcome (QTLManifest.from_gcs_path v fs sched2 root)
  /\ (forall m, outcome (QTLManifest.from_gcs_path v fs sched1 root) = inr m ->
        outcome (QTLManifest.transform (QTLManifest.studies m)) = inr (QTLManifest.df m))
  /\ (forall studies,
        QTLManifest.transform studies
        = ([Log INFO "Transforming manifest to DataFrame..."],
           inr (DataFrame.from_records (QTLManifest.records studies)))).
Proof.
  split; [apply schedule_irrelevant|]. split; [|done].
  intros m Hm. by apply from_gcs_path_finished in Hm as (paths & result & _ & _ & ->).
Qed.

Lemma build_deterministic_witness :
  exists m, outcome (QTLManifest.from_gcs_path Tools Demo.fs [1; 2] "bucket/root") = inr m
    /\ outcome (QTLManifest.transform (QTLManifest.studies m)) = inr (QTLManifest.df m).
Proof.
  destruct (outcome (QTLManifest.from_gcs_path Tools Demo.fs [1; 2] "bucket/root"))
    as [e|m] eqn:Hm; [vm_compute in Hm; discriminate Hm|].
  exists m. split; [reflexivity|].
  exact (proj1 (proj2 (build_deterministic Tools Demo.fs [1; 2] [0] "bucket/root")) m Hm).
Defined.

(** C9, as the code has it.  When the trailing segment [id] of [path] is a
    valid dataset name, the first existence query is about
    [path/id.credible_sets.parquet]; the second, about
    [path/id.lbf_variable.parquet], is issued exactly when the first one
    answers that the artifact exists.  So there are two queries when the
    first artifact exists, and one when it is missing. *)
Theorem existence_queries (v : program) (fs : filesystem) (path id : string) :
  outcome (QTLDataset._validate_name (name_of path)) = inr id ->
  exists_queries (events (QTLDataset.from_path v fs path)) =
  if fs_exists fs (path +:+ "/" +:+ id +:+ ".credible_sets.parquet")
  then [path +:+ "/" +:+ id +:+ ".credible_sets.parquet";
        path +:+ "/" +:+ id +:+ ".lbf_variable.parquet"]
  else [path +:+ "/" +:+ id +:+ ".credible_sets.parquet"].
Proof.
  intros [-> Hm]%validated_dataset_id. by rewrite from_path_queries, Hm.
Qed.

Lemma existence_queries_witness :
  exists_queries (events (QTLDataset.from_path Tools Demo.fs "bucket/root/QTS1/QTD2"))
  = ["bucket/root/QTS1/QTD2/QTD2.credible_sets.parquet";
     "bucket/root/QTS1/QTD2/QTD2.lbf_variable.parquet"].
Proof.
  exact (existence_queries Tools Demo.fs "bucket/root/QTS1/QTD2" "QTD2" eq_refl).
Defined.

(** C9, as it is stated, fails: the name [QTD3] is valid, its first
    artifact is missing, and [fs.exists] is called once, not twice. *)
Lemma two_queries_refuted :
  outcome (QTLDataset._validate_name (name_of "bucket/root/QTS1/QTD3")) = inr "QTD3"
  /\ fs_exists Demo.fs "bucket/root/QTS1/QTD3/QTD3.credible_sets.parquet" = false
  /\ exists_queries (events (QTLDataset.from_path Bin Demo.fs "bucket/root/QTS1/QTD3"))
     = ["bucket/root/QTS1/QTD3/QTD3.credible_sets.parquet"]
  /\ length (exists_queries (events (QTLDataset.from_path Bin Demo.fs "bucket/root/QTS1/QTD3")))
     <> 2.
Proof. repeat split. vm_compute. discriminate. Qed.

(** C10.  In a finished build every study carries an identifier that
    matches [^QTS\d+$] as a whole and every dataset one that matches
    [^QTD\d+$], so every row of the flat record set starts with [QTS] and
    digits, then [QTD] and digits.  The values [from_path] constructs carry
    a validated identifier, and [get_datasets] keeps the identifier of the
    study it fills. *)
Theorem ids_match_patterns (v : program) (fs : filesystem) (sched : list nat)
    (root : string) (m : QTLManifest.t) :
  outcome (QTLManifest.from_gcs_path v fs sched root) = inr m ->
  (forall row, row ∈ DataFrame.rows (QTLManifest.df m) ->
     exists sid did cs lbf,
       row = [Some sid; Some did; Some cs; Some lbf]
       /\ Re.fullmatch study_pattern sid = true /\ numbered "QTS" sid
       /\ Re.fullmatch dataset_pattern did = true /\ numbered "QTD" did)
  /\ (forall s, s ∈ QTLManifest.studies m ->
        Re.fullmatch study_pattern (QTLStudy.id s) = true
        /\ forall d, d ∈ QTLStudy.datasets s ->
             Re.fullmatch dataset_pattern (QTLDataset.id d) = true)
  /\ (forall p s, outcome (QTLStudy.from_path p) = inr s ->
        Re.fullmatch study_pattern (QTLStudy.id s) = true)
  /\ (forall p d, outcome (QTLDataset.from_path v fs p) = inr (Some d) ->
        Re.fullmatch dataset_pattern (QTLDataset.id d) = true)
  /\ (forall self s', outcome (QTLStudy.get_datasets v fs self) = inr s' ->
        QTLStudy.id s' = QTLStudy.id self).
Proof.
  intros Hm. split; [|split; [|split; [|split]]].
  - intros row Hrow.
    pose proof (from_gcs_path_finished _ _ _ _ _ Hm) as (paths & result & _ & _ & Heq).
    assert (Hdf : QTLManifest.df m
                  = DataFrame.from_records (QTLManifest.records (QTLManifest.studies m)))
      by (by rewrite Heq).
    rewrite Hdf, from_records_run in Hrow. cbn [DataFrame.rows] in Hrow.
    apply list_elem_of_In, in_flat_map in Hrow as (s & Hs & Hrow).
    apply in_map_iff in Hrow as (d & <- & Hd).
    apply list_elem_of_In in Hs, Hd.
    destruct (built_study_ids v fs sched root m s Hm Hs) as [Hsid Hds].
    specialize (Hds d Hd). eexists _, _, _, _. split; [reflexivity|].
    split; [done|]. split; [by apply study_pattern_numbered|].
    split; [done|]. by apply dataset_pattern_numbered.
  - intros s Hs. by apply (built_study_ids v fs sched root m).
  - intros p s. rewrite study_from_path_run. unfold study_survives.
    destruct (Re.fullmatch study_pattern (name_of p)) eqn:Hp; [|done]. by intros [= <-].
  - intros p d. rewrite from_path_outcome. intros [= Hd].
    apply (dataset_at_some v fs p d). unfold dataset_at. by rewrite Hd.
  - intros self s'. rewrite get_datasets_outcome.
    destruct (fs_ls fs (QTLStudy.path self)); [|done]. by intros [= <-].
Qed.

Lemma ids_match_patterns_witness :
  exists m, outcome (QTLManifest.from_gcs_path Bin Demo.fs [0] "bucket/root") = inr m
    /\ forall s, s ∈ QTLManifest.studies m ->
         Re.fullmatch study_pattern (QTLStudy.id s) = true
         /\ forall d, d ∈ QTLStudy.datasets s ->
              Re.fullmatch dataset_pattern (QTLDataset.id d) = true.
Proof.
  destruct (outcome (QTLManifest.from_gcs_path Bin Demo.fs [0] "bucket/root"))
    as [e|m] eqn:Hm; [vm_compute in Hm; discriminate Hm|].
  exists m. split; [reflexivity|].
  exact (proj1 (proj2 (ids_match_patterns Bin Demo.fs [0] "bucket/root" m Hm))).
Defined.

(** * Beyond the claims *)

(** ** Beyond the claims: the bucket-path callback *)

Lemma startswith_strip (s prefix : string) :
  Cli.startswith s prefix = true -> strip prefix s = Some (Cli.skip (String.length prefix) s).
Proof.
  revert s. induction prefix as [|c prefix IH]; intros s; [done|].
  destruct s as [|a s]; [done|]. cbn [Cli.startswith strip String.length Cli.skip].
  destruct (Ascii.eqb a c); [|done]. apply IH.
Qed.

Lemma startswith_false (s prefix : string) :
  Cli.startswith s prefix = false -> strip prefix s = None.
Proof.
  revert s. induction prefix as [|c prefix IH]; intros s; [done|].
  destruct s as [|a s]; [done|]. cbn [Cli.startswith strip].
  destruct (Ascii.eqb a c); [|done]. apply IH.
Qed.

(** X1.  [validate_gcs_path] rejects exactly the values that do not start
    with [gs://]; an accepted value comes back without that prefix, once,
    so that putting [gs://] in front of the result gives the value back,
    and nothing is logged. *)
Theorem validate_gcs_path_scheme (value : string) :
  ((exists msg, snd (Cli.validate_gcs_path value) = inl (Cli.bad_parameter msg))
   <-> ~ exists rest, value = "gs://" +:+ rest)
  /\ (forall r, snd (Cli.validate_gcs_path value) = inr r <-> value = "gs://" +:+ r)
  /\ fst (Cli.validate_gcs_path value) = [].
Proof.
  unfold Cli.validate_gcs_path, Cli.removeprefix. cbn [fst snd].
  destruct (Cli.startswith value "gs://") eqn:Hs; cbn [negb].
  - apply startswith_strip in Hs. pose proof (proj1 (strip_spec _ _ _) Hs) as Hv.
    split; [|split; [|done]].
    + split; [by intros [msg ?]|]. intros Hno. destruct Hno. eauto.
    + intros r. split.
      * by intros [= <-].
      * intros Hr. apply strip_spec in Hr. congruence.
  - apply startswith_false in Hs. split; [|split; [|done]].
    + split; [|by eexists]. intros _ [rest Hr]. apply strip_spec in Hr. congruence.
    + intros r. split; [done|]. intros Hr. apply strip_spec in Hr. congruence.
Qed.

Lemma validate_gcs_path_scheme_witness :
  snd (Cli.validate_gcs_path "gs://bucket/root") = inr "bucket/root".
Proof.
  exact (proj2 (proj1 (proj2 (validate_gcs_path_scheme "gs://bucket/root")) "bucket/root")
           eq_refl).
Defined.

(** ** Beyond the claims: what the dataset resolver logs *)

(** X2.  [QTLDataset.from_path] causes no event at all for a path whose
    trailing segment is not a valid dataset name: no backend call and no
    log record.  For a valid name it logs the warning about missing files
    once when an artifact is missing, and no warning otherwise. *)
Theorem from_path_warnings (v : program) (fs : filesystem) (path : string) :
  (raises_name_error (QTLDataset._validate_name (name_of path)) ->
   QTLDataset.from_path v fs path = ret None)
  /\ (forall id, outcome (QTLDataset._validate_name (name_of path)) = inr id ->
      warnings (events (QTLDataset.from_path v fs path)) =
      if fs_exists fs (path +:+ "/" +:+ id +:+ ".credible_sets.parquet")
         && fs_exists fs (path +:+ "/" +:+ id +:+ ".lbf_variable.parquet")
      then []
      else ["Dataset '" +:+ id +:+ "' is missing required SuSiE files. Skipping."]).
Proof.
  split.
  - rewrite dataset_validate_name_run. intros [msg Hmsg].
    destruct (Re.fullmatch dataset_pattern (name_of path)) eqn:Hm; [done|].
    destruct v; cbn [QTLDataset.from_path];
      [rewrite from_path_bin_run|rewrite from_path_tools_run]; cbv zeta; by rewrite Hm.
  - intros id [-> Hm]%validated_dataset_id.
    fold (cs_path path (name_of path)) (lbf_path path (name_of path)).
    destruct v; cbn [QTLDataset.from_path];
      [rewrite from_path_bin_run|rewrite from_path_tools_run]; cbv zeta; rewrite Hm;
      destruct (fs_exists fs (cs_path path (name_of path))),
        (fs_exists fs (lbf_path path (name_of path))); reflexivity.
Qed.

Lemma from_path_warnings_witness :
  warnings (events (QTLDataset.from_path Tools Demo.fs "bucket/root/QTS1/QTD3"))
  = ["Dataset 'QTD3' is missing required SuSiE files. Skipping."].
Proof.
  exact (proj2 (from_path_warnings Tools Demo.fs "bucket/root/QTS1/QTD3") "QTD3" eq_refl).
Defined.

(** ** Beyond the claims: paths that end with a slash *)

Lemma name_of_trailing_slash (p : string) : name_of (p +:+ "/") = "".
Proof.
  unfold name_of, Py.last_item. change (p +:+ "/") with (p +:+ String "/" "").
  rewrite split_app_sep. apply last_last.
Qed.

(** X3.  A path that ends with a slash has an empty trailing segment, so
    neither resolver accepts it, whatever the directory is called: the
    study resolver raises the error about empty names, and the dataset
    resolver returns [None] without a backend call or a log record. *)
Theorem trailing_slash_never_resolves (v : program) (fs : filesystem) (p : string) :
  QTLStudy.from_path (p +:+ "/")
  = raise (DatasetOrStudyNameError "Name has to be a non-empty string.")
  /\ QTLDataset.from_path v fs (p +:+ "/") = ret None
  /\ QTLManifest._prepare_study_for_path v fs (p +:+ "/")
     = ([Log WARNING (QTLManifest.skipping v (p +:+ "/"))], inr None).
Proof.
  assert (Hbad : study_survives (p +:+ "/") = false).
  { unfold study_survives. by rewrite name_of_trailing_slash. }
  split; [|split].
  - rewrite study_from_path_run, Hbad. by rewrite name_of_trailing_slash.
  - destruct v; cbn [QTLDataset.from_path];
      [rewrite from_path_bin_run|rewrite from_path_tools_run]; cbv zeta;
      by rewrite name_of_trailing_slash.
  - pose proof (prepare_invalid_events v fs _ Hbad) as He.
    pose proof (prepare_outcome v fs (p +:+ "/")) as Ho.
    rewrite (proj2 (study_at_none v fs _) Hbad) in Ho.
    destruct (QTLManifest._prepare_study_for_path v fs (p +:+ "/")) as [t r].
    cbn [events outcome fst snd] in *. by subst.
Qed.

(** ** Beyond the claims: the two levels do not mix *)

Lemma patterns_disjoint (name : string) :
  Re.fullmatch study_pattern name = true -> Re.fullmatch dataset_pattern name = false.
Proof.
  unfold study_pattern, dataset_pattern. rewrite !fullmatch_prefix_digits.
  destruct (strip "QTS" name) as [rest|] eqn:Hs; [|done]. intros _.
  apply strip_spec in Hs as ->. reflexivity.
Qed.

(** X4.  A path the study resolver accepts is never accepted by the
    dataset resolver: a study directory found among the children of a
    study gives no dataset, and no backend call is made for it. *)
Theorem study_is_no_dataset (v : program) (fs : filesystem) (p : string) (s : QTLStudy.t) :
  outcome (QTLStudy.from_path p) = inr s ->
  QTLDataset.from_path v fs p = ret None.
Proof.
  rewrite study_from_path_run. unfold study_survives.
  destruct (Re.fullmatch study_pattern (name_of p)) eqn:Hs; [|done]. intros _.
  apply patterns_disjoint in Hs.
  destruct v; cbn [QTLDataset.from_path];
    [rewrite from_path_bin_run|rewrite from_path_tools_run]; cbv zeta; by rewrite Hs.
Qed.

Lemma study_is_no_dataset_witness :
  QTLDataset.from_path Bin Demo.fs "bucket/root/QTS1" = ret None.
Proof.
  exact (study_is_no_dataset Bin Demo.fs "bucket/root/QTS1"
           (QTLStudy.mk "QTS1" "bucket/root/QTS1" []) eq_refl).
Defined.

(** ** Beyond the claims: filling a study twice *)

(** X5.  [get_datasets] reads only the path and the identifier of the
    study it is given: the datasets the study held before are discarded,
    and filling the study it returned again makes the same backend calls
    and returns the same study. *)
Theorem get_datasets_refill (v : program) (fs : filesystem) (self s1 : QTLStudy.t) :
  outcome (QTLStudy.get_datasets v fs self) = inr s1 ->
  QTLStudy.get_datasets v fs s1 = QTLStudy.get_datasets v fs self
  /\ QTLStudy.id s1 = QTLStudy.id self
  /\ QTLStudy.path s1 = QTLStudy.path self
  /\ forall ds, QTLStudy.get_datasets v fs
                  (QTLStudy.mk (QTLStudy.id self) (QTLStudy.path self) ds)
                = QTLStudy.get_datasets v fs self.
Proof.
  intros H1. pose proof H1 as H2. rewrite get_datasets_outcome in H2.
  destruct (fs_ls fs (QTLStudy.path self)) as [children|]; [|done].
  injection H2 as <-. cbn [QTLStudy.id QTLStudy.path]. done.
Qed.

Lemma get_datasets_refill_witness :
  QTLStudy.get_datasets Bin Demo.fs
    (QTLStudy.mk "QTS1" "bucket/root/QTS1"
       [QTLDataset.mk "QTD1" "bucket/root/QTS1/QTD1/QTD1.credible_sets.parquet"
                             "bucket/root/QTS1/QTD1/QTD1.lbf_variable.parquet"])
  = QTLStudy.get_datasets Bin Demo.fs (QTLStudy.mk "QTS1" "bucket/root/QTS1" []).
Proof.
  exact (proj1 (get_datasets_refill Bin Demo.fs (QTLStudy.mk "QTS1" "bucket/root/QTS1" []) _
                  eq_refl)).
Defined.

(** ** Beyond the claims: studies without datasets in the frame *)

Lemma records_filter (studies : list QTLStudy.t) :
  QTLManifest.records (List.filter has_datasets studies) = QTLManifest.records studies.
Proof.
  unfold QTLManifest.records. induction studies as [|s studies IH]; [done|].
  cbn [List.filter flat_map]. unfold has_datasets at 1.
  destruct (QTLStudy.datasets s) eqn:Hs; cbn [flat_map List.map app]; rewrite IH; [done|].
  by rewrite Hs.
Qed.

Lemma records_no_dataset (studies : list QTLStudy.t) :
  (forall s, s ∈ studies -> QTLStudy.datasets s = []) -> QTLManifest.records studies = [].
Proof.
  unfold QTLManifest.records. induction studies as [|s studies IH]; [done|]. intros Hall.
  cbn [flat_map]. rewrite (Hall s) by left. apply IH. intros; apply Hall; by right.
Qed.

(** X6.  A study without datasets leaves no trace in the frame: the frame
    of a list of studies is the frame of its studies that have a dataset.
    When no study has a dataset the frame has no row and no column at
    all, not even the four column names. *)
Theorem transform_skips_empty_studies (studies : list QTLStudy.t) :
  outcome (QTLManifest.transform studies)
  = outcome (QTLManifest.transform (List.filter has_datasets studies))
  /\ ((forall s, s ∈ studies -> QTLStudy.datasets s = []) ->
      outcome (QTLManifest.transform studies) = inr (DataFrame.mk [] [])).
Proof.
  rewrite !transform_outcome, records_filter. split; [done|].
  intros Hall. by rewrite records_no_dataset.
Qed.

Lemma transform_skips_empty_studies_witness :
  outcome (QTLManifest.transform [QTLStudy.mk "QTS2" "bucket/root/QTS2" []])
  = inr (DataFrame.mk [] []).
Proof.
  apply (proj2 (transform_skips_empty_studies [QTLStudy.mk "QTS2" "bucket/root/QTS2" []])).
  intros s Hs. apply list_elem_of_In in Hs. simpl in Hs. destruct Hs as [<-|[]]. reflexivity.
Defined.

Lemma records_app (a b : list QTLStudy.t) :
  QTLManifest.records (a ++ b) = QTLManifest.records a ++ QTLManifest.records b.
Proof. apply flat_map_app. Qed.

(** X7.  The rows of the frame of two lists of studies put end to end are
    the rows of the first followed by the rows of the second, and its
    columns are those of the first frame unless it has none. *)
Theorem transform_app (a b : list QTLStudy.t) :
  let frame l := DataFrame.from_records (QTLManifest.records l) in
  outcome (QTLManifest.transform (a ++ b)) = inr (frame (a ++ b))
  /\ DataFrame.rows (frame (a ++ b)) = DataFrame.rows (frame a) ++ DataFrame.rows (frame b)
  /\ DataFrame.columns (frame (a ++ b))
     = match DataFrame.columns (frame a) with
       | [] => DataFrame.columns (frame b)
       | cols => cols
       end.
Proof.
  cbv zeta. split; [done|]. rewrite !from_records_run. cbn [DataFrame.rows DataFrame.columns].
  split; [by rewrite flat_map_app|].
  rewrite records_app. destruct (QTLManifest.records a); [|done].
  cbn [app]. by destruct (QTLManifest.records b).
Qed.

(** ** Beyond the claims: listings that fail *)

Lemma collect_app_inl {A B} (f : A -> exn + B) (pre post : list A) (q : A) (e : exn) :
  (forall x, x ∈ pre -> exists b, f x = inr b) -> f q = inl e ->
  collect (List.map f (pre ++ q :: post)) = inl e.
Proof.
  intros Hpre Hq. induction pre as [|x pre IH]; cbn [app List.map collect].
  - by rewrite Hq.
  - destruct (Hpre x) as [b ->]; [left|]. rewrite IH; [done|]. intros; apply Hpre; by right.
Qed.

(** X8.  A listing that fails is fatal for the whole build, not only at
    the root.  When the root cannot be listed the build raises after that
    one backend call.  When the first validly named child of the root
    that cannot be listed is [q], the build raises the error of [q] for
    every completion order of the tasks, whatever the other children hold. *)
Theorem listing_failure_is_fatal (v : program) (fs : filesystem) (sched : list nat)
    (root : string) :
  (fs_ls fs root = None ->
   QTLManifest.from_gcs_path v fs sched root = ([Ls root], inl (BackendError root)))
  /\ (forall pre q post,
        fs_ls fs root = Some (pre ++ q :: post) ->
        (forall p, p ∈ pre -> study_survives p = true -> is_Some (fs_ls fs p)) ->
        study_survives q = true -> fs_ls fs q = None ->
        outcome (QTLManifest.from_gcs_path v fs sched root) = inl (BackendError q)).
Proof.
  split.
  - intros Hroot. unfold QTLManifest.from_gcs_path. by rewrite ls_run, Hroot.
  - intros pre q post Hroot Hpre Hq Hls. rewrite from_gcs_path_outcome, Hroot.
    rewrite (collect_app_inl _ pre post q (BackendError q)); [done| |].
    + intros p Hp. unfold study_at. destruct (study_survives p) eqn:Hs; [|by eexists].
      destruct (Hpre p Hp Hs) as [ch ->]. by eexists.
    + unfold study_at. by rewrite Hq, Hls.
Qed.

Lemma listing_failure_is_fatal_witness :
  outcome (QTLManifest.from_gcs_path Bin Broken.fs [3; 0] "r") = inl (BackendError "r/QTS2")
  /\ QTLManifest.from_gcs_path Tools Broken.fs [] "nowhere"
     = ([Ls "nowhere"], inl (BackendError "nowhere")).
Proof.
  split.
  - refine (proj2 (listing_failure_is_fatal Bin Broken.fs [3; 0] "r")
              ["r/QTS1"; "r/skip"] "r/QTS2" ["r/QTS3"] eq_refl _ eq_refl eq_refl).
    intros p Hp. apply list_elem_of_In in Hp. simpl in Hp.
    destruct Hp as [<-|[<-|[]]]; [by eexists|discriminate].
  - exact (proj1 (listing_failure_is_fatal Tools Broken.fs [] "nowhere") eq_refl).
Defined.

(** ** Beyond the claims: the paths [Tools] stores *)

Lemma join_cons_char (sep : string) (c : ascii) (seg : string) (segs : list string) :
  Py.join sep (String c seg :: segs) = String c (Py.join sep (seg :: segs)).
Proof. by destruct segs. Qed.

Lemma join_split (s : string) (sep : ascii) :
  Py.join (String sep "") (Py.split s sep) = s.
Proof.
  induction s as [|c s IH]; [done|]. cbn [Py.split].
  pose proof (split_nonempty s sep) as Hne.
  destruct (Ascii.eqb_spec c sep) as [->|Hc].
  - destruct (Py.split s sep) as [|seg segs] eqn:Hs; [done|].
    change (Py.join (String sep "") ("" :: seg :: segs))
      with (String sep (Py.join (String sep "") (seg :: segs))).
    by rewrite IH.
  - destruct (Py.split s sep) as [|seg segs] eqn:Hs; [done|].
    by rewrite join_cons_char, IH.
Qed.

Lemma join_app (sep : string) (l1 l2 : list string) :
  l1 <> [] -> l2 <> [] ->
  Py.join sep (l1 ++ l2) = Py.join sep l1 +:+ sep +:+ Py.join sep l2.
Proof.
  intros H1 H2. induction l1 as [|x l1 IH]; [done|].
  destruct l1 as [|y l1].
  - destruct l2 as [|z l2]; [done|]. reflexivity.
  - change (Py.join sep ((x :: y :: l1) ++ l2)) with (x +:+ sep +:+ Py.join sep ((y :: l1) ++ l2)).
    rewrite IH by done.
    change (Py.join sep (x :: y :: l1)) with (x +:+ sep +:+ Py.join sep (y :: l1)).
    by rewrite !append_assoc.
Qed.

Lemma truncated_short (s : string) :
  length (Py.split s "/") <= 3 -> truncated s = s.
Proof.
  intros Hlen. unfold truncated, Py.last_items.
  replace (length (Py.split s "/") - 3) with 0 by lia. apply join_split.
Qed.

Lemma truncated_suffix (s : string) :
  truncated s = s \/ exists pre, s = pre +:+ "/" +:+ truncated s.
Proof.
  destruct (decide (length (Py.split s "/") <= 3)) as [Hle|Hgt].
  - left. by apply truncated_short.
  - right. unfold truncated, Py.last_items.
    set (k := length (Py.split s "/") - 3).
    exists (Py.join "/" (take k (Py.split s "/"))).
    rewrite <- join_app.
    + by rewrite take_drop, join_split.
    + intros Ht%(f_equal length). rewrite length_take in Ht. subst k. simpl in Ht. lia.
    + intros Hd%(f_equal length). rewrite length_drop in Hd. subst k. simpl in Hd. lia.
Qed.

Lemma artifact_segments (path name suffix : string) :
  has_char "/" (name +:+ suffix) = false ->
  length (Py.split (path +:+ "/" +:+ name +:+ suffix) "/") = S (length (Py.split path "/")).
Proof.
  intros Hn. change (path +:+ "/" +:+ name +:+ suffix) with (path +:+ String "/" (name +:+ suffix)).
  rewrite split_app_sep, (split_no_sep _ _ Hn), length_app. simpl. lia.
Qed.

(** X9.  The path [Tools] stores for an artifact is always the end of the
    full path of the artifact, cut at a slash; and when the dataset path
    has at most two segments nothing is cut: the stored path is the full
    path, as in [Bin]. *)
Theorem tools_stored_path_is_suffix (fs : filesystem) (path : string) (d : QTLDataset.t) :
  outcome (QTLDataset.from_path Tools fs path) = inr (Some d) ->
  let cs := path +:+ "/" +:+ QTLDataset.id d +:+ ".credible_sets.parquet" in
  let lbf := path +:+ "/" +:+ QTLDataset.id d +:+ ".lbf_variable.parquet" in
  (QTLDataset.susie_cs_path d = cs
   \/ exists pre, cs = pre +:+ "/" +:+ QTLDataset.susie_cs_path d)
  /\ (QTLDataset.susie_lbf_path d = lbf
      \/ exists pre, lbf = pre +:+ "/" +:+ QTLDataset.susie_lbf_path d)
  /\ (length (Py.split path "/") <= 2 ->
      outcome (QTLDataset.from_path Bin fs path) = inr (Some d)).
Proof.
  rewrite !from_path_outcome. destruct (dataset_survives fs path) eqn:Hs; [|done].
  intros [= <-]. cbn [QTLDataset.id QTLDataset.susie_cs_path QTLDataset.susie_lbf_path stored].
  fold (cs_path path (name_of path)) (lbf_path path (name_of path)).
  split; [apply truncated_suffix|]. split; [apply truncated_suffix|].
  intros Hlen. unfold dataset_survives in Hs.
  apply andb_true_iff in Hs as [[Hn _]%andb_true_iff _].
  pose proof (dataset_id_no_slash _ Hn) as Hid.
  rewrite !truncated_short; [done| |].
  - unfold lbf_path. rewrite artifact_segments; [lia|]. by rewrite has_char_app, Hid.
  - unfold cs_path. rewrite artifact_segments; [lia|]. by rewrite has_char_app, Hid.
Qed.

Lemma tools_stored_path_is_suffix_witness :
  exists pre, "bucket/root/QTS1/QTD1/QTD1.credible_sets.parquet"
              = pre +:+ "/" +:+ "QTS1/QTD1/QTD1.credible_sets.parquet".
Proof.
  destruct (tools_stored_path_is_suffix Demo.fs "bucket/root/QTS1/QTD1"
              (QTLDataset.mk "QTD1" "QTS1/QTD1/QTD1.credible_sets.parquet"
                 "QTS1/QTD1/QTD1.lbf_variable.parquet") eq_refl) as ([H|H] & _).
  - discriminate H.
  - exact H.
Defined.

(** ** Beyond the claims: the events of a build, whatever the schedule *)

Lemma for_each_events {A B} (f : A -> M B) (xs : list A) (bs : list B) :
  outcome (for_each f xs) = inr bs ->
  events (for_each f xs) = concat (List.map (fun x => events (f x)) xs).
Proof.
  revert bs. induction xs as [|x xs IH]; intros bs; [done|].
  cbn [for_each List.map concat]. rewrite outcome_bind, events_bind.
  destruct (outcome (f x)) as [e|b]; [done|]. rewrite outcome_bind, events_bind.
  destruct (outcome (for_each f xs)) as [e|bs'] eqn:Hrest; [done|]. intros _.
  cbn [ret events fst]. by rewrite app_nil_r, (IH bs').
Qed.

Lemma done_events_insert {A B} (fn : A -> M B) (xs : list A)
    (sl : ThreadPoolExecutor.slots B) (i : nat) (x : A) (r : exn + B) :
  xs !! i = Some x -> sl !! i = Some None ->
  done_events fn xs (<[i := Some r]> sl) ≡ₚ done_events fn xs sl ++ events (fn x).
Proof.
  unfold done_events. revert sl i. induction xs as [|y xs IH]; intros sl i Hx Hs; [done|].
  destruct sl as [|s sl]; [done|]. destruct i as [|i].
  - injection Hx as ->. injection Hs as ->. cbn [list_insert insert zip_with concat app].
    apply Permutation_app_comm.
  - cbn [list_insert insert zip_with concat]. cbn in Hx, Hs.
    rewrite (IH sl i Hx Hs). by rewrite app_assoc.
Qed.

Lemma complete_done_events {A B} (fn : A -> M B) (xs : list A)
    (st : list event * ThreadPoolExecutor.slots B) (i : nat) :
  st.1 ≡ₚ done_events fn xs st.2 /\ length st.2 = length xs ->
  (ThreadPoolExecutor.complete fn xs st i).1
    ≡ₚ done_events fn xs (ThreadPoolExecutor.complete fn xs st i).2
  /\ length (ThreadPoolExecutor.complete fn xs st i).2 = length xs.
Proof.
  intros [Hlog Hlen]. unfold ThreadPoolExecutor.complete.
  destruct (xs !! i) as [x|] eqn:Hx; [|by split].
  destruct (st.2 !! i) as [[r|]|] eqn:Hs; [by split| |by split].
  cbn [fst snd]. split; [|by etrans; [apply length_insert|]].
  by rewrite (done_events_insert fn xs st.2 i x _ Hx Hs), Hlog.
Qed.

Lemma run_done_events {A B} (fn : A -> M B) (xs : list A) (sched : list nat) :
  (ThreadPoolExecutor.run fn xs sched).1
    ≡ₚ done_events fn xs (ThreadPoolExecutor.run fn xs sched).2
  /\ length (ThreadPoolExecutor.run fn xs sched).2 = length xs.
Proof.
  unfold ThreadPoolExecutor.run.
  assert (Hinit : (([] : list event, replicate (length xs) (None : option (exn + B)))).1
                    ≡ₚ done_events fn xs
                         (([] : list event, replicate (length xs) (None : option (exn + B)))).2
                  /\ length (([] : list event,
                              replicate (length xs) (None : option (exn + B)))).2 = length xs).
  { cbn [fst snd]. split; [|by rewrite length_replicate]. unfold done_events.
    induction xs as [|x xs IH]; [done|]. cbn [length replicate zip_with concat app]. apply IH. }
  revert Hinit. generalize (([] : list event), replicate (length xs) (None : option (exn + B))).
  induction sched as [|i sched IH]; intros st Hst; [done|].
  cbn [foldl]. by apply IH, complete_done_events.
Qed.

Lemma await_pending_events {A B} (fn : A -> M B) (xs : list A)
    (sl : ThreadPoolExecutor.slots B) (bs : list B) :
  outcome (ThreadPoolExecutor.await fn xs sl) = inr bs ->
  events (ThreadPoolExecutor.await fn xs sl) = pending_events fn xs sl.
Proof.
  unfold pending_events. revert sl bs. induction xs as [|x xs IH]; intros sl bs; [done|].
  destruct sl as [|s sl]; [done|].
  cbn [ThreadPoolExecutor.await zip_with concat]. rewrite outcome_bind, events_bind.
  destruct (outcome (match s with Some r => ([], r) | None => fn x end)) as [e|b] eqn:Hb;
    [done|].
  rewrite outcome_bind, events_bind.
  destruct (outcome (ThreadPoolExecutor.await fn xs sl)) as [e|bs'] eqn:Hrest; [done|].
  intros _. cbn [ret events fst]. rewrite app_nil_r, (IH sl bs' Hrest). by destruct s.
Qed.

Lemma done_pending_events {A B} (fn : A -> M B) (xs : list A)
    (sl : ThreadPoolExecutor.slots B) :
  length sl = length xs ->
  done_events fn xs sl ++ pending_events fn xs sl
    ≡ₚ concat (List.map (fun x => events (fn x)) xs).
Proof.
  unfold done_events, pending_events. revert sl.
  induction xs as [|x xs IH]; intros sl Hlen; [done|].
  destruct sl as [|s sl]; [done|]. cbn [zip_with concat List.map].
  injection Hlen as Hlen. rewrite <- (IH sl Hlen). destruct s; cbn [app].
  - rewrite <- !app_assoc. apply Permutation_app_head. done.
  - rewrite (app_assoc _ (events (fn x))), (Permutation_app_comm _ (events (fn x))).
    by rewrite <- !app_assoc.
Qed.

(** When [map] hands over all the results, every task has run once. *)
Lemma executor_map_events_perm {A B} (sched : list nat) (fn : A -> M B) (xs : list A)
    (bs : list B) :
  outcome (ThreadPoolExecutor.map sched fn xs) = inr bs ->
  events (ThreadPoolExecutor.map sched fn xs)
    ≡ₚ concat (List.map (fun x => events (fn x)) xs).
Proof.
  unfold ThreadPoolExecutor.map. rewrite outcome_bind, events_bind. cbn [outcome events fst snd].
  intros Hout. rewrite (await_pending_events _ _ _ bs Hout).
  destruct (run_done_events fn xs sched) as [Hlog Hlen].
  rewrite Hlog. by apply done_pending_events.
Qed.

Lemma from_gcs_path_events (v : program) (fs : filesystem) (sched : list nat)
    (root : string) (paths : list string) (m : QTLManifest.t) :
  fs_ls fs root = Some paths ->
  outcome (QTLManifest.from_gcs_path v fs sched root) = inr m ->
  events (QTLManifest.from_gcs_path v fs sched root)
    ≡ₚ Ls root
       :: Log INFO ("Found " +:+ Py.str_of_len paths +:+ " blobs in " +:+ root +:+ ".")
       :: concat (List.map (fun p => events (QTLManifest._prepare_study_for_path v fs p)) paths)
       ++ [Log INFO "Transforming manifest to DataFrame..."].
Proof.
  unfold QTLManifest.from_gcs_path. intros Hroot. rewrite ls_run, Hroot.
  rewrite outcome_bind, events_bind. cbn [outcome events fst snd].
  rewrite logger_info_emits, outcome_bind, events_bind. cbn [emit outcome events fst snd].
  rewrite outcome_bind, events_bind.
  destruct (outcome (ThreadPoolExecutor.map sched _ paths)) as [err|bs] eqn:Hmap; [done|].
  intros _. cbn [app]. do 2 apply Permutation_skip.
  by rewrite (executor_map_events_perm _ _ _ bs Hmap).
Qed.

(** X10.  A build that finishes causes the same events whatever the
    completion order of its tasks, up to their order: the same backend
    calls and the same log records, each as many times. *)
Theorem build_events_schedule_free (v : program) (fs : filesystem) (sched sched' : list nat)
    (root : string) (m : QTLManifest.t) :
  outcome (QTLManifest.from_gcs_path v fs sched root) = inr m ->
  events (QTLManifest.from_gcs_path v fs sched root)
    ≡ₚ events (QTLManifest.from_gcs_path v fs sched' root).
Proof.
  intros Hm. pose proof Hm as Hm'. rewrite (schedule_irrelevant v fs sched sched') in Hm'.
  pose proof (from_gcs_path_finished _ _ _ _ _ Hm) as (paths & _ & Hroot & _).
  by rewrite (from_gcs_path_events v fs sched root paths m Hroot Hm),
    (from_gcs_path_events v fs sched' root paths m Hroot Hm').
Qed.

Lemma build_events_schedule_free_witness :
  events (QTLManifest.from_gcs_path Bin Demo.fs [2; 0] "bucket/root")
    ≡ₚ events (QTLManifest.from_gcs_path Bin Demo.fs [] "bucket/root").
Proof.
  destruct (outcome (QTLManifest.from_gcs_path Bin Demo.fs [2; 0] "bucket/root"))
    as [e|m] eqn:Hm; [vm_compute in Hm; discriminate Hm|].
  exact (build_events_schedule_free Bin Demo.fs [2; 0] [] "bucket/root" m Hm).
Defined.

(** ** Beyond the claims: the backend calls of a study and of a build *)

Lemma from_path_no_ls (v : program) (fs : filesystem) (c : string) :
  ls_queries (events (QTLDataset.from_path v fs c)) = [].
Proof.
  destruct v; cbn [QTLDataset.from_path];
    [rewrite from_path_bin_run|rewrite from_path_tools_run]; cbv zeta;
    destruct (Re.fullmatch dataset_pattern (name_of c)),
      (fs_exists fs (cs_path c (name_of c))),
      (fs_exists fs (lbf_path c (name_of c)));
    reflexivity.
Qed.

Lemma get_datasets_events (v : program) (fs : filesystem) (self : QTLStudy.t)
    (children : list string) :
  fs_ls fs (QTLStudy.path self) = Some children ->
  events (QTLStudy.get_datasets v fs self)
  = Ls (QTLStudy.path self)
    :: concat (List.map (fun c => events (QTLDataset.from_path v fs c)) children).
Proof.
  intros Hls. unfold QTLStudy.get_datasets. rewrite ls_run, Hls.
  rewrite events_bind. cbn [outcome events fst snd app]. f_equal.
  rewrite events_bind, for_each_datasets. cbn [ret events fst].
  by rewrite app_nil_r, (for_each_events _ _ _ (for_each_datasets v fs children)).
Qed.

Lemma ls_queries_children (v : program) (fs : filesystem) (children : list string) :
  ls_queries (concat (List.map (fun c => events (QTLDataset.from_path v fs c)) children)) = [].
Proof.
  unfold ls_queries. induction children as [|c cs IH]; [done|].
  cbn [List.map concat]. rewrite omap_app, IH, app_nil_r. apply from_path_no_ls.
Qed.

Lemma exists_queries_children (v : program) (fs : filesystem) (children : list string) :
  exists_queries (concat (List.map (fun c => events (QTLDataset.from_path v fs c)) children))
  = flat_map (queries_for fs) children.
Proof.
  unfold exists_queries. induction children as [|c cs IH]; [done|].
  cbn [List.map concat flat_map]. rewrite omap_app, IH. f_equal. apply from_path_queries.
Qed.

Lemma queries_for_length (fs : filesystem) (children : list string) :
  length (flat_map (queries_for fs) children) <= 2 * length children.
Proof.
  induction children as [|c cs IH]; [done|]. cbn [flat_map length]. rewrite length_app.
  assert (length (queries_for fs c) <= 2); [|lia]. unfold queries_for.
  destruct (Re.fullmatch dataset_pattern (name_of c)), (fs_exists fs (cs_path c (name_of c)));
    simpl; lia.
Qed.

(** X11.  Filling a study lists the path of the study, once, and nothing
    else.  Its existence queries are those of its children in listing
    order: none for a child whose name is not a valid dataset name, the
    credible-sets path for the others, followed by the lbf-variable path
    when the first exists.  So a study of [n] children costs at most
    [2 * n] existence queries. *)
Theorem get_datasets_backend_calls (v : program) (fs : filesystem) (self : QTLStudy.t)
    (children : list string) :
  fs_ls fs (QTLStudy.path self) = Some children ->
  ls_queries (events (QTLStudy.get_datasets v fs self)) = [QTLStudy.path self]
  /\ exists_queries (events (QTLStudy.get_datasets v fs self))
     = flat_map (queries_for fs) children
  /\ length (exists_queries (events (QTLStudy.get_datasets v fs self)))
     <= 2 * length children.
Proof.
  intros Hls. rewrite (get_datasets_events v fs self children Hls).
  split; [|split].
  - change (ls_queries (Ls ?p :: ?t)) with (p :: ls_queries t).
    by rewrite ls_queries_children.
  - change (exists_queries (Ls ?p :: ?t)) with (exists_queries t).
    apply exists_queries_children.
  - change (exists_queries (Ls ?p :: ?t)) with (exists_queries t).
    rewrite exists_queries_children. apply queries_for_length.
Qed.

Lemma get_datasets_backend_calls_witness :
  exists_queries (events (QTLStudy.get_datasets Bin Demo.fs
                            (QTLStudy.mk "QTS1" "bucket/root/QTS1" [])))
  = [ "bucket/root/QTS1/QTD1/QTD1.credible_sets.parquet";
      "bucket/root/QTS1/QTD1/QTD1.lbf_variable.parquet";
      "bucket/root/QTS1/QTD2/QTD2.credible_sets.parquet";
      "bucket/root/QTS1/QTD2/QTD2.lbf_variable.parquet";
      "bucket/root/QTS1/QTD3/QTD3.credible_sets.parquet" ].
Proof.
  exact (proj1 (proj2 (get_datasets_backend_calls Bin Demo.fs
                         (QTLStudy.mk "QTS1" "bucket/root/QTS1" []) _ eq_refl))).
Defined.

Lemma prepare_valid_events (v : program) (fs : filesystem) (p : string)
    (children : list string) :
  study_survives p = true -> fs_ls fs p = Some children ->
  events (QTLManifest._prepare_study_for_path v fs p)
  = Ls p :: concat (List.map (fun c => events (QTLDataset.from_path v fs c)) children).
Proof.
  intros Hs Hls. unfold QTLManifest._prepare_study_for_path.
  rewrite study_from_path_run, Hs, bind_ret_l.
  pose proof (get_datasets_events v fs (QTLStudy.mk (name_of p) p []) children Hls) as He.
  pose proof (get_datasets_outcome v fs (QTLStudy.mk (name_of p) p [])) as Ho.
  cbn [QTLStudy.path QTLStudy.id] in He, Ho. rewrite Hls in Ho.
  destruct (QTLStudy.get_datasets v fs _) as [t r]. cbn [events outcome fst snd] in *.
  subst. cbn [bind ret try_except events fst snd]. by rewrite app_nil_r.
Qed.

Lemma ls_queries_tasks (v : program) (fs : filesystem) (paths : list string)
    (result : list (option QTLStudy.t)) :
  Forall2 (fun p r => study_at v fs p = inr r) paths result ->
  ls_queries (concat (List.map (fun p => events (QTLManifest._prepare_study_for_path v fs p))
                        paths))
  = List.filter study_survives paths.
Proof.
  unfold ls_queries. induction 1 as [|p r ps rs Hp _ IH]; [done|].
  cbn [List.map concat List.filter]. rewrite omap_app, IH. destruct r as [s|].
  - apply study_at_some in Hp as (Hs & ch & Hls & _). rewrite Hs.
    rewrite (prepare_valid_events v fs p ch Hs Hls).
    change (omap ?f (Ls p :: ?t)) with (p :: omap f t).
    pose proof (ls_queries_children v fs ch) as Hch. unfold ls_queries in Hch.
    by rewrite Hch.
  - apply study_at_none in Hp. by rewrite Hp, (prepare_invalid_events v fs p Hp).
Qed.

(** X12.  A build that finishes has listed the root and every child of the
    root with a valid study name, each exactly once, and nothing else:
    never a child with an invalid name and never a dataset directory. *)
Theorem build_listings (v : program) (fs : filesystem) (sched : list nat)
    (root : string) (paths : list string) (m : QTLManifest.t) :
  fs_ls fs root = Some paths ->
  outcome (QTLManifest.from_gcs_path v fs sched root) = inr m ->
  ls_queries (events (QTLManifest.from_gcs_path v fs sched root))
    ≡ₚ root :: List.filter study_survives paths.
Proof.
  intros Hroot Hm. unfold ls_queries at 1.
  rewrite (from_gcs_path_events v fs sched root paths m Hroot Hm).
  apply from_gcs_path_finished in Hm as (paths' & result & Hroot' & Hres & _).
  rewrite Hroot in Hroot'. injection Hroot' as <-.
  change (omap ?f (Ls root :: Log INFO ?msg :: ?t)) with (root :: omap f t).
  apply Permutation_skip. rewrite omap_app.
  pose proof (ls_queries_tasks v fs paths result Hres) as Ht. unfold ls_queries in Ht.
  rewrite Ht. cbn [omap list_omap]. by rewrite app_nil_r.
Qed.

Lemma build_listings_witness :
  ls_queries (events (QTLManifest.from_gcs_path Tools Demo.fs [2; 0] "bucket/root"))
    ≡ₚ ["bucket/root"; "bucket/root/QTS1"; "bucket/root/QTS2"].
Proof.
  destruct (outcome (QTLManifest.from_gcs_path Tools Demo.fs [2; 0] "bucket/root"))
    as [e|m] eqn:Hm; [vm_compute in Hm; discriminate Hm|].
  exact (build_listings Tools Demo.fs [2; 0] "bucket/root" _ m eq_refl Hm).
Defined.

(** ** Beyond the claims: the rows of a manifest, end to end *)

Lemma rows_of_datasets (v : program) (fs : filesystem) (p : string) (i : string)
    (children : list string) :
  List.map (row_of (QTLStudy.mk (name_of p) i (omap (dataset_at v fs) children)))
    (omap (dataset_at v fs) children)
  = List.map (row_at v p) (List.filter (dataset_survives fs) children).
Proof.
  generalize (omap (dataset_at v fs) children) at 1 as ds. intros ds.
  induction children as [|c cs IH]; [done|]. cbn [omap list_omap List.filter].
  unfold dataset_at at 1. destruct (dataset_survives fs c); [|done].
  cbn [List.map]. by rewrite <- IH.
Qed.

(** X13.  The rows of the frame of a finished build are, in listing order,
    one row for every child [c] that survives as a dataset of every child
    [p] of the root with a valid study name: the names of [p] and [c] and
    the stored paths of the two artifacts of [c]. *)
Theorem manifest_rows (v : program) (fs : filesystem) (sched : list nat)
    (root : string) (paths : list string) (m : QTLManifest.t) :
  fs_ls fs root = Some paths ->
  outcome (QTLManifest.from_gcs_path v fs sched root) = inr m ->
  DataFrame.rows (QTLManifest.df m)
  = flat_map (fun p => List.map (row_at v p)
                         (List.filter (dataset_survives fs) (children_of fs p)))
      (List.filter study_survives paths).
Proof.
  intros Hroot Hm.
  apply from_gcs_path_finished in Hm as (paths' & result & Hroot' & Hres & ->).
  rewrite Hroot in Hroot'. injection Hroot' as <-.
  cbn [QTLManifest.df]. rewrite from_records_run. cbn [DataFrame.rows].
  clear Hroot. unfold not_none. induction Hres as [|p r ps rs Hp _ IH]; [done|].
  cbn [omap list_omap List.filter]. destruct r as [s|].
  - apply study_at_some in Hp as (Hs & ch & Hls & ->). rewrite Hs.
    cbn [flat_map QTLStudy.datasets]. rewrite IH. f_equal.
    unfold children_of. rewrite Hls. apply rows_of_datasets.
  - apply study_at_none in Hp as ->. apply IH.
Qed.

Lemma manifest_rows_witness :
  exists m, outcome (QTLManifest.from_gcs_path Tools Demo.fs [1] "bucket/root") = inr m
    /\ DataFrame.rows (QTLManifest.df m)
       = [[Some "QTS1"; Some "QTD1"; Some "QTS1/QTD1/QTD1.credible_sets.parquet";
           Some "QTS1/QTD1/QTD1.lbf_variable.parquet"]].
Proof.
  destruct (outcome (QTLManifest.from_gcs_path Tools Demo.fs [1] "bucket/root"))
    as [e|m] eqn:Hm; [vm_compute in Hm; discriminate Hm|].
  exists m. split; [reflexivity|].
  exact (manifest_rows Tools Demo.fs [1] "bucket/root" _ m eq_refl Hm).
Defined.
